(** * A shallow embedding of the JSONPlaceholder API client

    The development follows [src/services/apiClient.ts] and
    [src/services/userService.ts]: the generic request function [apiClient],
    the two query helpers [fetchData] and [fetchFilteredData], and the user
    service function [deleteUser] built on top of them.

    Conventions of the embedding:
    - a JavaScript string is a [string] of bytes (its UTF-8 encoding);
    - a JavaScript [number] is a safe integer (of magnitude below 2^53, which
      [Number.prototype.toString] prints in decimal), [NaN] or an infinity;
      fractions and larger magnitudes are not represented;
    - a [Record<string, string>] is a finite map [gmap string string];
    - an [async] function is a computation over the trace of observable
      events (calls of the global [fetch], lines on [console.error]) that
      settles as [Resolved] or [Rejected];
    - the global [fetch] is an arbitrary function of the URL and the request
      configuration: nothing is assumed about the network. *)

From Stdlib Require Import ZArith NArith String Ascii List Lia.
From stdpp Require Import gmap strings pretty sorting.

(** ** The JavaScript platform *)

Module Js.

(** The integers that a number holds exactly and prints digit by digit:
    those of magnitude below 2^53. *)
Definition safe_integer (z : Z) : bool := (Z.abs z <? 2 ^ 53)%Z.

(** The numbers of the model: the safe integers (positive and negative zero
    are one value: they print alike and are both falsy), [NaN] and the two
    infinities. A number with a fractional part or of magnitude 2^53 and
    above has no counterpart here. *)
Inductive number : Type :=
| Int (z : Z) (safe : Is_true (safe_integer z))
| NaN
| Infinity (negative : bool).

(** [Number.prototype.toString()] and the [ToString] of a template literal:
    the decimal digits of a safe integer, with a leading minus sign. *)
Definition Number_toString (n : number) : string :=
  match n with
  | Int z _ => pretty z
  | NaN => "NaN"
  | Infinity false => "Infinity"
  | Infinity true => "-Infinity"
  end.

(** [ToBoolean] on a number: zero and [NaN] are falsy. *)
Definition truthy_number (n : number) : bool :=
  match n with
  | Int z _ => negb (z =? 0)%Z
  | NaN => false
  | Infinity _ => true
  end.

(** [ToBoolean] on a string: the empty string is falsy. *)
Definition truthy_string (s : string) : bool :=
  match s with
  | EmptyString => false
  | String _ _ => true
  end.

(** [ToBoolean] on an optional property or argument: [undefined] is falsy,
    a present value is judged by [truthy]. *)
Definition truthy_opt {A : Type} (truthy : A → bool) (o : option A) : bool :=
  match o with
  | None => false
  | Some a => truthy a
  end.

(** A decoded JSON document, the value [response.json()] resolves to. *)
#[warnings="-register-all"]
Inductive JSON : Type :=
| JNull
| JBool (b : bool)
| JNumber (n : number)
| JString (s : string)
| JArray (items : list JSON)
| JObject (members : list (string * JSON)).

(** A value thrown from outside the module (by [fetch] or by the JSON
    decoder), seen through its [name] and its [message]. *)
Record Exception : Type := {
  exn_name : string;
  exn_message : string
}.

(** A promise handed over by the transport, once settled. *)
Inductive Promise (A : Type) : Type :=
| Fulfilled (value : A)
| Failed (reason : Exception).
Arguments Fulfilled {A} value.
Arguments Failed {A} reason.

(** A value thrown inside the module. Objects have identity: an [Error] that
    the module allocates with [new Error(message)] is never the same object
    as a value the transport threw, whatever the latter's name and message
    are. *)
Inductive Thrown : Type :=
| NewError (message : string)
| Foreign (reason : Exception).

Definition Thrown_name (e : Thrown) : string :=
  match e with
  | NewError _ => "Error"
  | Foreign reason => exn_name reason
  end.

Definition Thrown_message (e : Thrown) : string :=
  match e with
  | NewError message => message
  | Foreign reason => exn_message reason
  end.

(** How an [async] function of the module settles. *)
Inductive Settled (A : Type) : Type :=
| Resolved (value : A)
| Rejected (reason : Thrown).
Arguments Resolved {A} value.
Arguments Rejected {A} reason.

(** Object literals with spread members are evaluated left to right; a
    property written later replaces an earlier one with the same key. *)
Definition set_property (key value : string) (target : gmap string string)
  : gmap string string :=
  <[key := value]> target.

(** [...source] inside an object literal: every own property of [source] is
    written to [target]. Spreading [undefined] writes nothing. *)
Definition spread (source : option (gmap string string))
    (target : gmap string string) : gmap string string :=
  match source with
  | None => target
  | Some src => src ∪ target
  end.

(** *** [URLSearchParams] *)

(** The list of name-value tuples of a [URLSearchParams] object. *)
Definition URLSearchParams : Type := list (string * string).

Definition URLSearchParams_new : URLSearchParams := [].

Definition URLSearchParams_append (params : URLSearchParams)
    (name value : string) : URLSearchParams :=
  params ++ [(name, value)].

Definition hex_digit (n : N) : ascii :=
  ascii_of_N (if (n <? 10)%N then 48 + n else 55 + n)%N.

(** The bytes outside the application/x-www-form-urlencoded percent-encode
    set: ASCII alphanumerics and [*], [-], [.], [_]. *)
Definition urlencoded_literal (n : N) : bool :=
  ((n =? 42) || (n =? 45) || (n =? 46) || (n =? 95)
   || ((48 <=? n) && (n <=? 57))
   || ((65 <=? n) && (n <=? 90))
   || ((97 <=? n) && (n <=? 122)))%N.

Definition urlencoded_byte (c : ascii) : string :=
  let n := N_of_ascii c in
  if (n =? 32)%N then "+"
  else if urlencoded_literal n then String c EmptyString
  else String "%" (String (hex_digit (n / 16))
                     (String (hex_digit (n mod 16)) EmptyString)).

(** Percent-encode after encoding, with space as plus. *)
Fixpoint urlencoded_string (s : string) : string :=
  match s with
  | EmptyString => EmptyString
  | String c rest => urlencoded_byte c +:+ urlencoded_string rest
  end.

Definition urlencoded_tuple (tuple : string * string) : string :=
  urlencoded_string tuple.1 +:+ "=" +:+ urlencoded_string tuple.2.

(** One step of the serializer's loop: an ampersand unless the output is
    still empty, then [name=value]. *)
Definition urlencoded_step (output : string) (tuple : string * string)
  : string :=
  (if truthy_string output then output +:+ "&" else output)
    +:+ urlencoded_tuple tuple.

(** [URLSearchParams.prototype.toString()]: the
    application/x-www-form-urlencoded serializer. *)
Definition URLSearchParams_toString (params : URLSearchParams) : string :=
  fold_left urlencoded_step params EmptyString.

End Js.

Import Js.

(** ** Requests, responses and observable events *)

(** [interface ApiClientOptions extends RequestInit]: the members the
    repository reads or writes. An absent member is [None]. *)
Record ApiClientOptions : Type := {
  method : option string;
  headers : option (gmap string string);
  body : option string
}.

(** The object literal [{}]. *)
Definition no_options : ApiClientOptions :=
  {| method := None; headers := None; body := None |}.

(** What the transport hands back: the success flag, the numeric status and
    the outcome of the asynchronous [json()] decoding. *)
Record Response : Type := {
  ok : bool;
  status : number;
  json : Promise JSON
}.

(** The global [fetch]: from the URL and the configuration to a response, or
    to a rejection. *)
Definition Transport : Type := string → ApiClientOptions → Promise Response.

Inductive Event : Type :=
| EvFetch (url : string) (config : ApiClientOptions)
| EvConsoleError (label : string) (error : Thrown).

(** ** Asynchronous computations

    A computation extends the trace of events and settles. [await] of a
    rejected promise throws its reason; [try ... catch] handles it. *)

Definition Async (A : Type) : Type := list Event → list Event * Settled A.

#[global] Instance Async_ret : MRet Async :=
  λ A (a : A) trace, (trace, Resolved a).

#[global] Instance Async_bind : MBind Async :=
  λ A B (k : A → Async B) (m : Async A) trace,
    match m trace with
    | (trace', Resolved a) => k a trace'
    | (trace', Rejected e) => (trace', Rejected e)
    end.

#[global] Instance Async_throw : MThrow Thrown Async :=
  λ A (e : Thrown) trace, (trace, Rejected e).

Definition try_catch {A : Type} (block : Async A) (handler : Thrown → Async A)
  : Async A :=
  λ trace,
    match block trace with
    | (trace', Resolved a) => (trace', Resolved a)
    | (trace', Rejected e) => handler e trace'
    end.

Definition emit (ev : Event) : Async unit :=
  λ trace, (trace ++ [ev], Resolved tt).

(** [await promise]: the value of a fulfilled promise; the reason of a failed
    one is thrown as it is. *)
Definition await {A : Type} (promise : Promise A) : Async A :=
  λ trace,
    match promise with
    | Fulfilled value => (trace, Resolved value)
    | Failed reason => (trace, Rejected (Foreign reason))
    end.

Definition console_error (label : string) (error : Thrown) : Async unit :=
  emit (EvConsoleError label error).

(** The requests a computation issued, in order. *)
Definition requests_in (trace : list Event)
  : list (string * ApiClientOptions) :=
  omap (λ ev, match ev with
              | EvFetch url config => Some (url, config)
              | EvConsoleError _ _ => None
              end) trace.

(** The errors a computation wrote to the diagnostic stream, in order. *)
Definition logged_in (trace : list Event) : list (string * Thrown) :=
  omap (λ ev, match ev with
              | EvFetch _ _ => None
              | EvConsoleError label error => Some (label, error)
              end) trace.

(** ** [src/services/apiClient.ts] *)

(** The sort order, ["asc" | "desc"]. *)
Inductive Order : Type := asc | desc.

Definition Order_string (o : Order) : string :=
  match o with
  | asc => "asc"
  | desc => "desc"
  end.

(** [interface FilterOptions]: every member is optional. *)
Record FilterOptions : Type := {
  sortBy : option string;
  order : option Order;
  limit : option number;
  start : option number
}.

Definition no_filter_options : FilterOptions :=
  {| sortBy := None; order := None; limit := None; start := None |}.

(** A filter value, [string | number]. *)
Inductive Scalar : Type :=
| SString (s : string)
| SNumber (n : number).

(** [value.toString()] *)
Definition Scalar_toString (value : Scalar) : string :=
  match value with
  | SString s => s
  | SNumber n => Number_toString n
  end.

(** [Record<string, string | number>]: the filter object, given by the
    properties written to it, in the order in which they were written (the
    order of the members of an object literal). *)
Definition Filters : Type := list (string * Scalar).

(** *** The order of the own properties of an object

    A property name that is an array index (the canonical decimal form of an
    integer from 0 to 2^32 - 2: the form that printing the integer gives
    back) is enumerated before every other name, in ascending numeric order;
    the other names follow in the order in which they were first written.
    Writing to a name that exists replaces the value and keeps the place. *)

Definition digit_value (c : ascii) : option N :=
  let n := N_of_ascii c in
  if ((48 <=? n) && (n <=? 57))%N then Some (n - 48)%N else None.

Fixpoint digits_value (acc : N) (s : string) : option N :=
  match s with
  | EmptyString => Some acc
  | String c rest =>
      match digit_value c with
      | Some d => digits_value (10 * acc + d) rest
      | None => None
      end
  end.

Definition array_index (key : string) : option N :=
  match digits_value 0 key with
  | Some n =>
      if (n <? 2 ^ 32 - 1)%N && String.eqb (pretty n) key
      then Some n
      else None
  | None => None
  end.

(** The own properties of an object: the indexed ones, ascending, and the
    named ones, in creation order. *)
Record OwnProperties : Type := {
  indexed : list (N * (string * Scalar));
  named : list (string * Scalar)
}.

Fixpoint set_indexed (i : N) (key : string) (value : Scalar)
    (props : list (N * (string * Scalar))) : list (N * (string * Scalar)) :=
  match props with
  | [] => [(i, (key, value))]
  | (j, p) :: rest =>
      if (i <? j)%N then (i, (key, value)) :: (j, p) :: rest
      else if (i =? j)%N then (j, (key, value)) :: rest
      else (j, p) :: set_indexed i key value rest
  end.

Fixpoint set_named (key : string) (value : Scalar)
    (props : list (string * Scalar)) : list (string * Scalar) :=
  match props with
  | [] => [(key, value)]
  | (k, v) :: rest =>
      if String.eqb k key then (k, value) :: rest
      else (k, v) :: set_named key value rest
  end.

Definition define_property (object : OwnProperties) (key : string)
    (value : Scalar) : OwnProperties :=
  match array_index key with
  | Some i =>
      {| indexed := set_indexed i key value (indexed object);
         named := named object |}
  | None =>
      {| indexed := indexed object;
         named := set_named key value (named object) |}
  end.

Definition object_of (writes : Filters) : OwnProperties :=
  fold_left (λ object '(key, value), define_property object key value)
            writes {| indexed := []; named := [] |}.

(** [Object.entries(filters)] *)
Definition Object_entries (filters : Filters) : list (string * Scalar) :=
  let object := object_of filters in
  map snd (indexed object) ++ named object.

Section ApiClient.

(** The global [fetch] the module calls. *)
Variable fetch : Transport.

Definition await_fetch (url : string) (config : ApiClientOptions)
  : Async Response :=
  emit (EvFetch url config) ;; await (fetch url config).

Definition BASE_URL : string := "https://jsonplaceholder.typicode.com".

(** The [headers] member of [config]: the default content type, then the
    caller's headers, then the authorization header when [authToken] is
    truthy. *)
Definition config_headers (options : ApiClientOptions)
    (authToken : option string) : gmap string string :=
  let h := set_property "Content-Type" "application/json" ∅ in
  let h := spread (headers options) h in
  let h := spread (match authToken with
                   | Some token =>
                       if truthy_string token
                       then Some {[ "Authorization" := "Bearer " +:+ token ]}
                       else Some ∅
                   | None => Some ∅
                   end) h in
  h.

(** [{ ...options, headers: { ... } }] *)
Definition make_config (options : ApiClientOptions)
    (authToken : option string) : ApiClientOptions :=
  {| method := method options;
     headers := Some (config_headers options authToken);
     body := body options |}.

(** [apiClient<T>(endpoint, options = {}, authToken?)] *)
Definition apiClient (endpoint : string) (options : option ApiClientOptions)
    (authToken : option string) : Async JSON :=
  let options := default no_options options in
  let config := make_config options authToken in
  try_catch
    (response ← await_fetch (BASE_URL +:+ endpoint) config;
     if negb (ok response)
     then mthrow (NewError ("HTTP error! Status: "
                              +:+ Number_toString (status response)))
     else
       data ← await (json response);
       mret data)
    (λ error,
       console_error "API call failed:" error ;;
       mthrow error).

(** [fetchData<T>(resource, searchField, searchTerm = "")] *)
Definition fetchData_endpoint (resource searchField : string)
    (searchTerm : option string) : string :=
  let searchTerm := default EmptyString searchTerm in
  if truthy_string searchTerm
  then "/" +:+ resource +:+ "?" +:+ searchField +:+ "_like=" +:+ searchTerm
  else "/" +:+ resource.

Definition fetchData (resource searchField : string)
    (searchTerm : option string) : Async JSON :=
  let endpoint := fetchData_endpoint resource searchField searchTerm in
  apiClient endpoint None None.

(** The state of [queryParams] when the endpoint is built. *)
Definition fetchFilteredData_queryParams (filters : Filters)
    (options : option FilterOptions) : URLSearchParams :=
  let options := default no_filter_options options in
  let queryParams := URLSearchParams_new in
  let queryParams :=
    fold_left (λ params '(field, value),
                 URLSearchParams_append params field (Scalar_toString value))
              (Object_entries filters) queryParams in
  let queryParams :=
    match sortBy options with
    | Some sort_field =>
        if truthy_string sort_field
        then URLSearchParams_append queryParams "_sort" sort_field
        else queryParams
    | None => queryParams
    end in
  let queryParams :=
    match order options with
    | Some o =>
        if truthy_string (Order_string o)
        then URLSearchParams_append queryParams "_order" (Order_string o)
        else queryParams
    | None => queryParams
    end in
  let queryParams :=
    match limit options with
    | Some n =>
        if truthy_number n
        then URLSearchParams_append queryParams "_limit" (Number_toString n)
        else queryParams
    | None => queryParams
    end in
  let queryParams :=
    match start options with
    | Some n =>
        if truthy_number n
        then URLSearchParams_append queryParams "_start" (Number_toString n)
        else queryParams
    | None => queryParams
    end in
  queryParams.

Definition fetchFilteredData_endpoint (resource : string) (filters : Filters)
    (options : option FilterOptions) : string :=
  let queryParams := fetchFilteredData_queryParams filters options in
  "/" +:+ resource +:+ "?" +:+ URLSearchParams_toString queryParams.

(** [fetchFilteredData<T>(resource, filters, options = {})] *)
Definition fetchFilteredData (resource : string) (filters : Filters)
    (options : option FilterOptions) : Async JSON :=
  let endpoint := fetchFilteredData_endpoint resource filters options in
  apiClient endpoint None None.

(** ** [src/services/userService.ts] *)

(** [getUsers(authToken?)] *)
Definition getUsers (authToken : option string) : Async JSON :=
  apiClient "/users" (Some no_options) authToken.

(** [getUserById(userId, authToken?)] *)
Definition getUserById (userId : number) (authToken : option string)
  : Async JSON :=
  apiClient ("/users/" +:+ Number_toString userId) (Some no_options) authToken.

(** [deleteUser(userId, authToken?)]: the awaited value is dropped and the
    function body ends without a [return]. *)
Definition deleteUser (userId : number) (authToken : option string)
  : Async unit :=
  _ ← apiClient ("/users/" +:+ Number_toString userId)
        (Some {| method := Some "DELETE"; headers := None; body := None |})
        authToken;
  mret tt.

End ApiClient.

(** ** [JSON.stringify]

    The serialization of a JSON-like value without a replacer and without
    indentation: members and elements are separated by a comma, a key from its
    value by a colon, with no white space. Object members are listed in the
    enumeration order of the own properties; a member whose value is
    [undefined] has no counterpart in [JSON] (it would be skipped). *)

Module JsonText.

(** The double quote and the backslash. *)
Definition quote_char : ascii := "034"%char.
Definition backslash_char : ascii := "092"%char.

Definition lower_hex_digit (n : N) : ascii :=
  ascii_of_N (if (n <? 10)%N then 48 + n else 87 + n)%N.

Definition escape (c : ascii) : string :=
  String backslash_char (String c EmptyString).

(** One byte of [QuoteJSONString]: the two-character escapes, [\u00XX] for the
    other control characters, every other byte as it is. *)
Definition quote_byte (c : ascii) : string :=
  let n := N_of_ascii c in
  if (n =? 8)%N then escape "b"
  else if (n =? 9)%N then escape "t"
  else if (n =? 10)%N then escape "n"
  else if (n =? 12)%N then escape "f"
  else if (n =? 13)%N then escape "r"
  else if (n =? 34)%N then escape quote_char
  else if (n =? 92)%N then escape backslash_char
  else if (n <? 32)%N
  then String backslash_char
         (String "u" (String "0" (String "0"
            (String (lower_hex_digit (n / 16))
               (String (lower_hex_digit (n mod 16)) EmptyString)))))
  else String c EmptyString.

Fixpoint quote_bytes (s : string) : string :=
  match s with
  | EmptyString => EmptyString
  | String c rest => quote_byte c +:+ quote_bytes rest
  end.

(** [QuoteJSONString] *)
Definition quote (s : string) : string :=
  String quote_char (quote_bytes s +:+ String quote_char EmptyString).

(** A number: its digits when it is finite, [null] otherwise. *)
Definition number_text (n : number) : string :=
  match n with
  | Int z _ => Number_toString n
  | NaN | Infinity _ => "null"
  end.

(** [JSON.stringify(value)] *)
Fixpoint stringify (value : JSON) : string :=
  match value with
  | JNull => "null"
  | JBool b => if b then "true" else "false"
  | JNumber n => number_text n
  | JString s => quote s
  | JArray items =>
      "[" +:+ String.concat "," (map stringify items) +:+ "]"
  | JObject members =>
      "{" +:+ String.concat ","
                (map (λ member,
                        quote member.1 +:+ ":" +:+ stringify member.2)
                     members)
          +:+ "}"
  end.

End JsonText.

(** ** The rest of [src/services/userService.ts] *)

Section UserService.

Variable fetch : Transport.

(** [createUser(userData, authToken?)]. [Partial<User>] constrains the
    argument at compile time only; at run time it is the JSON-like value that
    [JSON.stringify] walks. *)
Definition createUser (userData : JSON) (authToken : option string)
  : Async JSON :=
  apiClient fetch "/users"
    (Some {| method := Some "POST";
             headers := None;
             body := Some (JsonText.stringify userData) |})
    authToken.

(** [updateUser(userId, updatedData, authToken?)] *)
Definition updateUser (userId : number) (updatedData : JSON)
    (authToken : option string) : Async JSON :=
  apiClient fetch ("/users/" +:+ Number_toString userId)
    (Some {| method := Some "PUT";
             headers := None;
             body := Some (JsonText.stringify updatedData) |})
    authToken.

End UserService.

(** ** [src/scripts/index.ts]

    The script prints on [console.log] besides what the client does, so its
    trace has one more kind of event. *)

Inductive ScriptEvent : Type :=
| EvClient (ev : Event)
| EvConsoleLog (label : string) (value : JSON).

Definition Script (A : Type) : Type :=
  list ScriptEvent → list ScriptEvent * Settled A.

#[global] Instance Script_ret : MRet Script :=
  λ A (a : A) trace, (trace, Resolved a).

#[global] Instance Script_bind : MBind Script :=
  λ A B (k : A → Script B) (m : Script A) trace,
    match m trace with
    | (trace', Resolved a) => k a trace'
    | (trace', Rejected e) => (trace', Rejected e)
    end.

Definition Script_try_catch {A : Type} (block : Script A)
    (handler : Thrown → Script A) : Script A :=
  λ trace,
    match block trace with
    | (trace', Resolved a) => (trace', Resolved a)
    | (trace', Rejected e) => handler e trace'
    end.

(** A call into the client: its events, in their order, become events of the
    script. *)
Definition call_client {A : Type} (m : Async A) : Script A :=
  λ trace, let '(events, settled) := m [] in
           (trace ++ (EvClient <$> events), settled).

Definition console_log (label : string) (value : JSON) : Script unit :=
  λ trace, (trace ++ [EvConsoleLog label value], Resolved tt).

Definition Script_console_error (label : string) (error : Thrown)
  : Script unit :=
  λ trace, (trace ++ [EvClient (EvConsoleError label error)], Resolved tt).

(** [async function fetchUsers()] *)
Definition fetchUsers (fetch : Transport) : Script unit :=
  Script_try_catch
    (users ← call_client (apiClient fetch "/users/1" None None);
     console_log "Fetched users:" users)
    (λ error, Script_console_error "Error fetching users:" error).

(** ** Notions used to state properties of the query string *)

Fixpoint string_forallb (p : ascii → bool) (s : string) : bool :=
  match s with
  | EmptyString => true
  | String c rest => p c && string_forallb p rest
  end.

Fixpoint string_count (c : ascii) (s : string) : nat :=
  match s with
  | EmptyString => 0
  | String c' rest =>
      (if Ascii.eqb c c' then 1 else 0) + string_count c rest
  end.

(** A decimal digit. *)
Definition is_digit (c : ascii) : bool :=
  let n := N_of_ascii c in
  ((48 <=? n) && (n <=? 57))%N.

(** The bytes that [urlencoded_string] can produce. *)
Definition urlencoded_output (c : ascii) : bool :=
  let n := N_of_ascii c in
  (urlencoded_literal n || (n =? 43) || (n =? 37))%N.

(** The bytes of a serialized query: the above and the two separators. *)
Definition query_byte (c : ascii) : bool :=
  let n := N_of_ascii c in
  (urlencoded_output c || (n =? 61) || (n =? 38))%N.

(** A string that the serializer leaves as it is. *)
Definition unreserved (s : string) : bool :=
  string_forallb (λ c, urlencoded_literal (N_of_ascii c)) s.

(** The inverse of [urlencoded_string], used to show that it loses
    nothing. *)
Definition hex_value (c : ascii) : N :=
  let n := N_of_ascii c in
  (if n <? 58 then n - 48 else n - 55)%N.

Fixpoint urldecoded_string (s : string) : string :=
  match s with
  | EmptyString => EmptyString
  | String c rest =>
      if (N_of_ascii c =? 43)%N
      then String " " (urldecoded_string rest)
      else if (N_of_ascii c =? 37)%N
      then match rest with
           | String high (String low rest') =>
               String (ascii_of_N (16 * hex_value high + hex_value low))
                      (urldecoded_string rest')
           | _ => String c (urldecoded_string rest)
           end
      else String c (urldecoded_string rest)
  end.

(** The headers of a request made with no caller headers. *)
Definition service_headers (authToken : option string)
  : gmap string string :=
  match authToken with
  | Some (String c token) =>
      {[ "Authorization" := "Bearer " +:+ String c token;
         "Content-Type" := "application/json" ]}
  | _ => {[ "Content-Type" := "application/json" ]}
  end.

(** ** Derived notions used in the statements *)

(** The URL and the configuration [apiClient] hands to [fetch]. *)
Definition request_url (endpoint : string) : string := BASE_URL +:+ endpoint.

Definition request_config (options : option ApiClientOptions)
    (authToken : option string) : ApiClientOptions :=
  make_config (default no_options options) authToken.

(** The error raised on a response whose success flag is off. *)
Definition http_error (response : Response) : Thrown :=
  NewError ("HTTP error! Status: " +:+ Number_toString (status response)).

(** The trace and the outcome of a call that fails with [e]: the request,
    then the line on the diagnostic stream, then the rejection. *)
Definition failed_call (trace : list Event) (url : string)
    (config : ApiClientOptions) (e : Thrown) : list Event * Settled JSON :=
  (trace ++ [EvFetch url config; EvConsoleError "API call failed:" e],
   Rejected e).

(** The configuration of a call made with no options and no token. *)
Definition bare_config : ApiClientOptions :=
  {| method := None;
     headers := Some {[ "Content-Type" := "application/json" ]};
     body := None |}.

(** The query parameters as the specification lists them: one per filter
    entry (as [Object.entries] enumerates them) with the value in its string
    form, then [_sort], [_order], [_limit], [_start] for the options that are
    set, a falsy value counting as unset. *)
Definition filter_params (filters : Filters) : list (string * string) :=
  map (λ entry, (entry.1, Scalar_toString entry.2)) (Object_entries filters).

Definition param_if_set {A : Type} (truthy : A → bool) (show : A → string)
    (name : string) (o : option A) : list (string * string) :=
  match o with
  | Some a => if truthy a then [(name, show a)] else []
  | None => []
  end.

Definition option_params (options : FilterOptions) : list (string * string) :=
  param_if_set truthy_string id "_sort" (sortBy options)
  ++ param_if_set (λ _, true) Order_string "_order" (order options)
  ++ param_if_set truthy_number Number_toString "_limit" (limit options)
  ++ param_if_set truthy_number Number_toString "_start" (start options).

(** What writing the properties one by one keeps true of the object. *)
Definition well_ordered (object : OwnProperties) : Prop :=
  StronglySorted (λ p q, (p.1 < q.1)%N) (indexed object)
  ∧ Forall (λ p, array_index p.2.1 = Some p.1) (indexed object)
  ∧ Forall (λ e, array_index e.1 = None) (named object).

(** One entry comes before another when both names are array indices and
    the first index is the smaller one. *)
Definition index_before (e1 e2 : string * Scalar) : Prop :=
  match array_index e1.1, array_index e2.1 with
  | Some i, Some j => (i < j)%N
  | _, _ => False
  end.

(** The options with every falsy member removed, as if it had never been
    set. *)
Definition unset_if_falsy {A : Type} (truthy : A → bool) (o : option A)
  : option A :=
  if truthy_opt truthy o then o else None.

Definition unset_falsy (options : FilterOptions) : FilterOptions :=
  {| sortBy := unset_if_falsy truthy_string (sortBy options);
     order := order options;
     limit := unset_if_falsy truthy_number (limit options);
     start := unset_if_falsy truthy_number (start options) |}.

(** No option is set to a truthy value. *)
Definition all_falsy (options : option FilterOptions) : bool :=
  let options := default no_filter_options options in
  negb (truthy_opt truthy_string (sortBy options))
  && negb (truthy_opt (λ o, truthy_string (Order_string o)) (order options))
  && negb (truthy_opt truthy_number (limit options))
  && negb (truthy_opt truthy_number (start options)).

(** ** Sample runs *)

Definition leanne : JSON :=
  JObject [("id", JNumber (Int 1 I)); ("name", JString "Leanne Graham");
           ("username", JString "Bret")].

(** A transport that answers every request with 200 and the body [leanne]. *)
Definition response_ok : Response :=
  {| ok := true; status := Int 200 I; json := Fulfilled leanne |}.

Definition fetch_ok : Transport := λ _ _, Fulfilled response_ok.

(** A transport that answers every request with 404. *)
Definition response_404 : Response :=
  {| ok := false; status := Int 404 I; json := Fulfilled JNull |}.

Definition fetch_404 : Transport := λ _ _, Fulfilled response_404.

(** A transport with no network. *)
Definition network_down : Exception :=
  {| exn_name := "TypeError"; exn_message := "fetch failed" |}.

Definition fetch_down : Transport := λ _ _, Failed network_down.

(** A transport whose response body is not JSON. *)
Definition bad_json : Exception :=
  {| exn_name := "SyntaxError";
     exn_message := "Unexpected end of JSON input" |}.

Definition response_garbled : Response :=
  {| ok := true; status := Int 200 I; json := Failed bad_json |}.

Definition fetch_garbled : Transport := λ _ _, Fulfilled response_garbled.

(** A transport that answers 404 with a body that is not JSON. *)
Definition response_404_garbled : Response :=
  {| ok := false; status := Int 404 I; json := Failed bad_json |}.

Definition fetch_404_garbled : Transport :=
  λ _ _, Fulfilled response_404_garbled.

(** A transport that answers 204 with an empty body. *)
Definition response_204 : Response :=
  {| ok := true; status := Int 204 I; json := Failed bad_json |}.

Definition fetch_204 : Transport := λ _ _, Fulfilled response_204.

Definition john : JSON :=
  JObject [("name", JString "John Doe");
           ("email", JString "john@example.com")].

(** ** The request executor, step by step *)

Lemma apiClient_unfold (fetch : Transport) (endpoint : string)
    (options : option ApiClientOptions) (authToken : option string)
    (trace : list Event) :
  let url := request_url endpoint in
  let config := request_config options authToken in
  apiClient fetch endpoint options authToken trace
  = match fetch url config with
    | Failed reason => failed_call trace url config (Foreign reason)
    | Fulfilled response =>
        if ok response
        then match json response with
             | Fulfilled data =>
                 (trace ++ [EvFetch url config], Resolved data)
             | Failed reason => failed_call trace url config (Foreign reason)
             end
        else failed_call trace url config (http_error response)
    end.
Proof.
  cbn zeta. unfold apiClient, try_catch, await_fetch, failed_call.
  unfold mbind, Async_bind, emit, await. cbn.
  fold (request_url endpoint). fold (request_config options authToken).
  destruct (fetch _ _) as [response|reason]; cbn.
  - destruct (ok response); cbn.
    + destruct (json response) as [data|reason]; cbn; [done|].
      by rewrite <- (assoc_L (++)).
    + by rewrite <- (assoc_L (++)).
  - by rewrite <- (assoc_L (++)).
Qed.

Lemma logged_in_app (t1 t2 : list Event) :
  logged_in (t1 ++ t2) = logged_in t1 ++ logged_in t2.
Proof. unfold logged_in. apply omap_app. Qed.

Lemma requests_in_app (t1 t2 : list Event) :
  requests_in (t1 ++ t2) = requests_in t1 ++ requests_in t2.
Proof. unfold requests_in. apply omap_app. Qed.

(** ** Outcomes of the request executor *)

(** C1. When the transport's response has its success flag on, [apiClient]
    resolves to exactly the value the transport's JSON decoding supplied,
    untransformed, and writes nothing to the diagnostic stream. *)
Theorem apiClient_resolves_decoded_body (fetch : Transport)
    (endpoint : string) (options : option ApiClientOptions)
    (authToken : option string) (trace : list Event)
    (response : Response) (data : JSON) :
  fetch (request_url endpoint) (request_config options authToken)
    = Fulfilled response →
  ok response = true →
  json response = Fulfilled data →
  (apiClient fetch endpoint options authToken trace).2 = Resolved data
  ∧ logged_in (apiClient fetch endpoint options authToken trace).1
    = logged_in trace.
Proof.
  intros Hfetch Hok Hjson.
  rewrite apiClient_unfold. cbn zeta. rewrite Hfetch, Hok, Hjson. cbn.
  split; [done|].
  rewrite logged_in_app. cbn. by rewrite (right_id_L [] (++)).
Qed.

Lemma apiClient_resolves_decoded_body_witness :
  fetch_ok (request_url "/users/1") (request_config None None)
    = Fulfilled response_ok
  ∧ ok response_ok = true
  ∧ json response_ok = Fulfilled leanne
  ∧ (apiClient fetch_ok "/users/1" None None []).2 = Resolved leanne.
Proof.
  split; [reflexivity|]. split; [reflexivity|]. split; [reflexivity|].
  apply (apiClient_resolves_decoded_body fetch_ok "/users/1" None None []
           response_ok leanne); reflexivity.
Defined.

(** C2. When the transport's response has its success flag off and status
    [S], [apiClient] rejects with the error it allocates itself, whose
    message is exactly "HTTP error! Status: S"; when the flag is on, the
    outcome is never an error allocated by [apiClient]. *)
Theorem apiClient_http_status_error (fetch : Transport)
    (endpoint : string) (options : option ApiClientOptions)
    (authToken : option string) (trace : list Event) (response : Response) :
  fetch (request_url endpoint) (request_config options authToken)
    = Fulfilled response →
  (ok response = false →
     ∃ error,
       (apiClient fetch endpoint options authToken trace).2 = Rejected error
       ∧ error = NewError ("HTTP error! Status: "
                             +:+ Number_toString (status response))
       ∧ Thrown_name error = "Error"
       ∧ Thrown_message error
         = "HTTP error! Status: " +:+ Number_toString (status response))
  ∧ (ok response = true →
     ∀ message,
       (apiClient fetch endpoint options authToken trace).2
       ≠ Rejected (NewError message)).
Proof.
  intros Hfetch. rewrite apiClient_unfold. cbn zeta. rewrite Hfetch.
  split; intros Hok; rewrite Hok.
  - eexists. split; [reflexivity|]. done.
  - intros message. by destruct (json response).
Qed.

Lemma apiClient_http_status_error_witness :
  (apiClient fetch_404 "/invalid-endpoint" None None []).2
    = Rejected (NewError "HTTP error! Status: 404")
  ∧ (apiClient fetch_ok "/users/1" None None []).2
    ≠ Rejected (NewError "HTTP error! Status: 200").
Proof.
  split.
  - destruct (apiClient_http_status_error fetch_404 "/invalid-endpoint"
                None None [] response_404 eq_refl) as [Hoff _].
    destruct (Hoff eq_refl) as (error & Hout & -> & _). exact Hout.
  - apply (apiClient_http_status_error fetch_ok "/users/1" None None []
             response_ok eq_refl).
    reflexivity.
Defined.

(** C7. Every failure of [apiClient] (the transport's rejection, the JSON
    decoder's rejection, the status error) is written to the diagnostic
    stream right after the request and re-thrown as the same value; a call
    that rejects has logged exactly its reason, and a call that resolves
    returns the decoded body of a successful response, never a fallback. *)
Theorem apiClient_failure_logged_and_rethrown (fetch : Transport)
    (endpoint : string) (options : option ApiClientOptions)
    (authToken : option string) (trace : list Event) :
  let url := request_url endpoint in
  let config := request_config options authToken in
  let result := apiClient fetch endpoint options authToken trace in
  (∀ reason,
     fetch url config = Failed reason →
     result = (trace ++ [EvFetch url config;
                         EvConsoleError "API call failed:" (Foreign reason)],
               Rejected (Foreign reason)))
  ∧ (∀ response reason,
       fetch url config = Fulfilled response → ok response = true →
       json response = Failed reason →
       result = (trace ++ [EvFetch url config;
                           EvConsoleError "API call failed:" (Foreign reason)],
                 Rejected (Foreign reason)))
  ∧ (∀ response,
       fetch url config = Fulfilled response → ok response = false →
       result = (trace ++ [EvFetch url config;
                           EvConsoleError "API call failed:"
                             (http_error response)],
                 Rejected (http_error response)))
  ∧ (∀ e,
       result.2 = Rejected e →
       result.1 = trace ++ [EvFetch url config;
                            EvConsoleError "API call failed:" e])
  ∧ (∀ data,
       result.2 = Resolved data →
       ∃ response,
         fetch url config = Fulfilled response ∧ ok response = true
         ∧ json response = Fulfilled data).
Proof.
  cbn zeta. rewrite apiClient_unfold. cbn zeta. unfold failed_call.
  repeat split.
  - by intros reason ->.
  - by intros response reason -> -> ->.
  - by intros response -> ->.
  - intros e. destruct (fetch _ _) as [response|reason]; cbn.
    + destruct (ok response); cbn.
      * destruct (json response); cbn; [done|]. by intros [= ->].
      * by intros [= ->].
    + by intros [= ->].
  - intros data. destruct (fetch _ _) as [response|reason]; cbn; [|done].
    destruct (ok response) eqn:Hok; cbn; [|done].
    destruct (json response) as [data'|reason] eqn:Hjson; cbn; [|done].
    intros [= ->]. by exists response.
Qed.

Lemma apiClient_failure_logged_and_rethrown_witness :
  apiClient fetch_down "/users/1" None None []
    = ([EvFetch (request_url "/users/1") bare_config;
        EvConsoleError "API call failed:" (Foreign network_down)],
       Rejected (Foreign network_down))
  ∧ apiClient fetch_garbled "/users/1" None None []
    = ([EvFetch (request_url "/users/1") bare_config;
        EvConsoleError "API call failed:" (Foreign bad_json)],
       Rejected (Foreign bad_json))
  ∧ apiClient fetch_404 "/users/1" None None []
    = ([EvFetch (request_url "/users/1") bare_config;
        EvConsoleError "API call failed:"
          (NewError "HTTP error! Status: 404")],
       Rejected (NewError "HTTP error! Status: 404")).
Proof.
  split; [|split].
  - apply (apiClient_failure_logged_and_rethrown fetch_down "/users/1"
             None None []).
    reflexivity.
  - apply (apiClient_failure_logged_and_rethrown fetch_garbled "/users/1"
             None None [] : _ ∧ _ ∧ _) with (response := response_garbled);
      reflexivity.
  - apply (apiClient_failure_logged_and_rethrown fetch_404 "/users/1"
             None None [] : _ ∧ _ ∧ _ ∧ _) with (response := response_404);
      reflexivity.
Defined.

(** ** Request headers *)

Lemma config_headers_union (options : ApiClientOptions)
    (authToken : option string) :
  config_headers options authToken
  = (if truthy_opt truthy_string authToken
     then {[ "Authorization" := "Bearer " +:+ default EmptyString authToken ]}
     else ∅)
    ∪ (default ∅ (headers options)
       ∪ {[ "Content-Type" := "application/json" ]}).
Proof.
  unfold config_headers, spread, set_property.
  rewrite insert_empty.
  destruct authToken as [token|]; cbn.
  - destruct (truthy_string token); cbn;
      destruct (headers options); cbn; by rewrite ?(left_id_L ∅ (∪)).
  - destruct (headers options); cbn; by rewrite ?(left_id_L ∅ (∪)).
Qed.

Lemma apiClient_request (fetch : Transport) (endpoint : string)
    (options : option ApiClientOptions) (authToken : option string)
    (trace : list Event) :
  requests_in (apiClient fetch endpoint options authToken trace).1
  = requests_in trace
    ++ [(request_url endpoint, request_config options authToken)].
Proof.
  rewrite apiClient_unfold. cbn zeta. unfold failed_call.
  destruct (fetch _ _) as [response|reason]; cbn.
  - destruct (ok response); cbn.
    + destruct (json response); cbn; by rewrite requests_in_app.
    + by rewrite requests_in_app.
  - by rewrite requests_in_app.
Qed.

(** C3, as the code has it. The request carries the caller's method and body
    and the merged headers: the default content type, overridden by the
    caller's headers, overridden by "Authorization: Bearer <token>" exactly
    when the token is a non-empty string. With a non-empty token the caller's
    own Authorization header never survives; with no token or the empty token
    no Authorization header is added and the caller's one is left as it is. *)
Theorem apiClient_headers_precedence (fetch : Transport) (endpoint : string)
    (options : option ApiClientOptions) (authToken : option string)
    (trace : list Event) :
  let caller := default ∅ (headers (default no_options options)) in
  let merged := config_headers (default no_options options) authToken in
  requests_in (apiClient fetch endpoint options authToken trace).1
  = requests_in trace
    ++ [(BASE_URL +:+ endpoint,
         {| method := method (default no_options options);
            headers := Some merged;
            body := body (default no_options options) |})]
  ∧ (∀ token,
       authToken = Some token → token ≠ EmptyString →
       merged !! "Authorization" = Some ("Bearer " +:+ token))
  ∧ (authToken = None ∨ authToken = Some EmptyString →
     merged !! "Authorization" = caller !! "Authorization")
  ∧ (∀ key,
       key ≠ "Authorization" →
       merged !! key
       = match caller !! key with
         | Some value => Some value
         | None =>
             if decide (key = "Content-Type")
             then Some "application/json"
             else None
         end).
Proof.
  cbn zeta. split; [apply apiClient_request|].
  rewrite config_headers_union. repeat split.
  - intros token -> Hne. destruct token; [done|]. cbn.
    by rewrite lookup_union_l'; rewrite lookup_singleton_eq.
  - intros [-> | ->]; cbn; rewrite (left_id_L ∅ (∪));
      by rewrite lookup_union_l.
  - intros key Hkey.
    rewrite lookup_union_r.
    2:{ destruct (truthy_opt truthy_string authToken);
          [by rewrite lookup_singleton_ne|done]. }
    rewrite lookup_union.
    destruct (default ∅ (headers (default no_options options)) !! key)
      as [value|]; cbn.
    + by destruct ({[ "Content-Type" := "application/json" ]} !! key).
    + rewrite (left_id_L None (∪)). case_decide as Hct.
      * subst key. by rewrite lookup_singleton_eq.
      * by rewrite lookup_singleton_ne.
Qed.

Lemma apiClient_headers_precedence_witness :
  config_headers
    {| method := None;
       headers := Some {[ "Authorization" := "Basic dXNlcg==";
                          "Content-Type" := "text/plain" ]};
       body := None |}
    (Some "test-token") !! "Authorization"
  = Some "Bearer test-token".
Proof.
  apply (apiClient_headers_precedence fetch_ok "/users/2"
           (Some {| method := None;
                    headers := Some {[ "Authorization" := "Basic dXNlcg==";
                                       "Content-Type" := "text/plain" ]};
                    body := None |})
           (Some "test-token") [] : _ ∧ _) with (token := "test-token");
    [reflexivity|discriminate].
Defined.

(** C3 as stated fails for the empty token: a token argument is passed, yet
    the request carries no Authorization header at all, in particular not
    "Bearer " followed by the token. *)
Lemma apiClient_empty_token_no_authorization :
  (apiClient fetch_ok "/users" (Some no_options) (Some EmptyString) []).1
    = [EvFetch (BASE_URL +:+ "/users") bare_config]
  ∧ headers bare_config
    = Some (config_headers no_options (Some EmptyString))
  ∧ config_headers no_options (Some EmptyString) !! "Authorization" = None
  ∧ config_headers no_options (Some EmptyString) !! "Authorization"
    ≠ Some ("Bearer " +:+ EmptyString).
Proof. repeat split; [vm_compute; reflexivity..|discriminate]. Qed.

(** ** The query string *)

Lemma string_app_assoc (s1 s2 s3 : string) :
  (s1 +:+ s2) +:+ s3 = s1 +:+ s2 +:+ s3.
Proof.
  induction s1 as [|c s1 IH]; [done|].
  change (String c ((s1 +:+ s2) +:+ s3) = String c (s1 +:+ s2 +:+ s3)).
  by f_equal.
Qed.

Lemma string_app_nil_r (s : string) : s +:+ EmptyString = s.
Proof.
  induction s as [|c s IH]; [done|].
  change (String c (s +:+ EmptyString) = String c s). by f_equal.
Qed.

Lemma truthy_string_app_l (s1 s2 : string) :
  truthy_string s1 = true → truthy_string (s1 +:+ s2) = true.
Proof. by destruct s1. Qed.

Lemma truthy_urlencoded_tuple (tuple : string * string) :
  truthy_string (urlencoded_tuple tuple) = true.
Proof.
  unfold urlencoded_tuple. by destruct (urlencoded_string tuple.1).
Qed.

(** Once the output is not empty, every further tuple adds an ampersand and
    its [name=value]. *)
Lemma urlencoded_loop_nonempty (tuples : list (string * string))
    (output : string) :
  truthy_string output = true →
  fold_left urlencoded_step tuples output
  = output +:+ foldr (λ tuple rest, "&" +:+ urlencoded_tuple tuple +:+ rest)
                     EmptyString tuples.
Proof.
  revert output. induction tuples as [|tuple tuples IH]; intros output Hout.
  - cbn. by rewrite string_app_nil_r.
  - cbn. rewrite IH.
    + unfold urlencoded_step. rewrite Hout.
      by rewrite !string_app_assoc.
    + unfold urlencoded_step. rewrite Hout.
      by apply truthy_string_app_l, truthy_string_app_l.
Qed.

Lemma concat_cons_foldr (sep x : string) (xs : list string) :
  String.concat sep (x :: xs)
  = x +:+ foldr (λ y rest, sep +:+ y +:+ rest) EmptyString xs.
Proof.
  revert x. induction xs as [|y xs IH]; intros x.
  - cbn. by rewrite string_app_nil_r.
  - change (String.concat sep (x :: y :: xs))
      with (x +:+ sep +:+ String.concat sep (y :: xs)).
    by rewrite IH.
Qed.

(** The serializer joins the encoded tuples with ampersands. *)
Lemma URLSearchParams_toString_concat (params : URLSearchParams) :
  URLSearchParams_toString params
  = String.concat "&" (map urlencoded_tuple params).
Proof.
  unfold URLSearchParams_toString. destruct params as [|tuple params].
  - reflexivity.
  - cbn [fold_left map]. rewrite concat_cons_foldr.
    rewrite urlencoded_loop_nonempty by apply truthy_urlencoded_tuple.
    f_equal. induction params as [|t params IH]; cbn; [done|].
    by rewrite IH.
Qed.

Lemma append_entries (entries : list (string * Scalar))
    (params : URLSearchParams) :
  fold_left (λ params '(field, value),
               URLSearchParams_append params field (Scalar_toString value))
            entries params
  = params ++ map (λ entry, (entry.1, Scalar_toString entry.2)) entries.
Proof.
  revert params. induction entries as [|[field value] entries IH];
    intros params; cbn.
  - by rewrite (right_id_L [] (++)).
  - rewrite IH. unfold URLSearchParams_append.
    by rewrite <- (assoc_L (++)).
Qed.

Lemma fetchFilteredData_queryParams_eq (filters : Filters)
    (options : option FilterOptions) :
  fetchFilteredData_queryParams filters options
  = filter_params filters ++ option_params (default no_filter_options options).
Proof.
  unfold fetchFilteredData_queryParams.
  rewrite append_entries. fold (filter_params filters).
  unfold URLSearchParams_new, option_params, param_if_set.
  cbn [app]. generalize (default no_filter_options options).
  intros [sort ord lim st]. cbn.
  unfold URLSearchParams_append.
  destruct sort as [sort|]; [destruct (truthy_string sort)|];
    (destruct ord as [[]|]);
    (destruct lim as [lim|]; [destruct (truthy_number lim)|]);
    (destruct st as [st|]; [destruct (truthy_number st)|]);
    cbn; rewrite <- ?(assoc_L (++)); cbn; by rewrite ?(right_id_L [] (++)).
Qed.

(** A parameter that an option contributes bears the option's parameter name
    and a truthy value. *)
Lemma param_if_set_name {A : Type} (truthy : A → bool) (show : A → string)
    (name : string) (o : option A) (tuple : string * string) :
  tuple ∈ param_if_set truthy show name o →
  tuple.1 = name ∧ truthy_opt truthy o = true.
Proof.
  unfold param_if_set. destruct o as [a|]; cbn; [|by intros ?%elem_of_nil].
  destruct (truthy a); [|by intros ?%elem_of_nil].
  by intros ->%list_elem_of_singleton.
Qed.

Lemma param_if_set_falsy {A : Type} (truthy : A → bool) (show : A → string)
    (name : string) (o : option A) :
  truthy_opt truthy o = false → param_if_set truthy show name o = [].
Proof. destruct o as [a|]; cbn; [|done]. by intros ->. Qed.

Lemma option_params_all_falsy (options : option FilterOptions) :
  all_falsy options = true →
  option_params (default no_filter_options options) = [].
Proof.
  unfold all_falsy. cbn zeta.
  rewrite !andb_true_iff, !negb_true_iff.
  intros [[[Hsort Horder] Hlimit] Hstart]. unfold option_params.
  rewrite (param_if_set_falsy truthy_string) by exact Hsort.
  rewrite !(param_if_set_falsy truthy_number) by assumption.
  rewrite param_if_set_falsy; [done|].
  by destruct (order (default no_filter_options options)) as [[]|].
Qed.

Lemma request_config_bare : request_config None None = bare_config.
Proof. by vm_compute. Qed.

Lemma bare_request (fetch : Transport) (endpoint : string)
    (trace : list Event) :
  requests_in (apiClient fetch endpoint None None trace).1
  = requests_in trace ++ [(BASE_URL +:+ endpoint, bare_config)].
Proof. by rewrite apiClient_request, request_config_bare. Qed.

(** ** The enumeration order of the filter object *)

Lemma array_index_canonical (key : string) (i : N) :
  array_index key = Some i → pretty i = key ∧ (i < 2 ^ 32 - 1)%N.
Proof.
  unfold array_index. destruct (digits_value 0 key) as [n|]; [|done].
  destruct (n <? 2 ^ 32 - 1)%N eqn:Hbound; [|done]. cbn.
  destruct (String.eqb_spec (pretty n) key) as [Heq|]; [|done].
  intros [= <-]. split; [done|]. by apply N.ltb_lt.
Qed.

Lemma array_index_inj (key1 key2 : string) (i : N) :
  array_index key1 = Some i → array_index key2 = Some i → key1 = key2.
Proof.
  intros [<- _]%array_index_canonical [<- _]%array_index_canonical. done.
Qed.

Lemma set_named_fresh (key : string) (value : Scalar)
    (props : list (string * Scalar)) :
  key ∉ props.*1 → set_named key value props = props ++ [(key, value)].
Proof.
  induction props as [|[k v] props IH]; [done|]. cbn.
  intros [Hne Hnotin]%not_elem_of_cons.
  destruct (String.eqb_spec k key) as [->|]; [done|]. by rewrite IH.
Qed.

Lemma elem_of_set_named (key : string) (value : Scalar)
    (props : list (string * Scalar)) (e : string * Scalar) :
  e ∈ set_named key value props → e = (key, value) ∨ e ∈ props.
Proof.
  induction props as [|[k v] props IH]; cbn.
  - intros ->%list_elem_of_singleton. by left.
  - destruct (String.eqb_spec k key) as [->|].
    + intros [->|?]%elem_of_cons; [by left|right; by right].
    + intros [->|?]%elem_of_cons; [right; by left|].
      destruct IH as [->|?]; [done|by left|right; by right].
Qed.

Lemma elem_of_set_indexed (i : N) (key : string) (value : Scalar)
    (props : list (N * (string * Scalar))) (p : N * (string * Scalar)) :
  p ∈ set_indexed i key value props → p = (i, (key, value)) ∨ p ∈ props.
Proof.
  induction props as [|[j q] props IH]; cbn.
  - intros ->%list_elem_of_singleton. by left.
  - destruct (i <? j)%N; [|destruct (i =? j)%N eqn:Heq].
    + intros [->|?]%elem_of_cons; [by left|by right].
    + apply N.eqb_eq in Heq as <-.
      intros [->|?]%elem_of_cons; [by left|right; by right].
    + intros [->|?]%elem_of_cons; [right; by left|].
      destruct IH as [->|?]; [done|by left|right; by right].
Qed.

Lemma set_indexed_sorted (i : N) (key : string) (value : Scalar)
    (props : list (N * (string * Scalar))) :
  StronglySorted (λ p q, (p.1 < q.1)%N) props →
  StronglySorted (λ p q, (p.1 < q.1)%N) (set_indexed i key value props).
Proof.
  induction 1 as [|[j q] props Hsorted IH Hall]; cbn.
  - by repeat constructor.
  - destruct (i <? j)%N eqn:Hlt; [|destruct (i =? j)%N eqn:Heq].
    + apply N.ltb_lt in Hlt. constructor; [by constructor|].
      constructor; [done|]. eapply Forall_impl; [exact Hall|].
      intros p Hp. cbn in *. lia.
    + by constructor.
    + apply N.ltb_ge in Hlt. apply N.eqb_neq in Heq.
      constructor; [done|]. apply Forall_forall.
      intros p [->|Hp]%elem_of_set_indexed; cbn; [lia|].
      by eapply Forall_forall in Hall.
Qed.

Lemma set_indexed_fresh (i : N) (key : string) (value : Scalar)
    (props : list (N * (string * Scalar))) :
  i ∉ props.*1 →
  set_indexed i key value props ≡ₚ (i, (key, value)) :: props.
Proof.
  induction props as [|[j q] props IH]; [done|]. cbn.
  intros [Hne Hnotin]%not_elem_of_cons.
  destruct (i <? j)%N; [done|].
  destruct (i =? j)%N eqn:Heq; [by apply N.eqb_eq in Heq|].
  rewrite IH by done. apply Permutation_swap.
Qed.

Lemma define_property_well_ordered (object : OwnProperties)
    (key : string) (value : Scalar) :
  well_ordered object → well_ordered (define_property object key value).
Proof.
  intros (Hsorted & Hindexed & Hnamed). unfold define_property.
  destruct (array_index key) as [i|] eqn:Hkey; cbn; repeat split; cbn;
    try done.
  - by apply set_indexed_sorted.
  - apply Forall_forall.
    intros p [->|Hp]%elem_of_set_indexed; [done|].
    by eapply Forall_forall in Hindexed.
  - apply Forall_forall.
    intros e [->|He]%elem_of_set_named; [done|].
    by eapply Forall_forall in Hnamed.
Qed.

Lemma writes_well_ordered (writes : Filters) (object : OwnProperties) :
  well_ordered object →
  well_ordered
    (fold_left (λ object '(key, value), define_property object key value)
               writes object).
Proof.
  revert object. induction writes as [|[key value] writes IH];
    intros object Hobject; [done|].
  cbn. by apply IH, define_property_well_ordered.
Qed.

Lemma object_of_well_ordered (writes : Filters) :
  well_ordered (object_of writes).
Proof.
  apply writes_well_ordered. by repeat constructor.
Qed.

Lemma elem_of_indexed_keys (props : list (N * (string * Scalar)))
    (k : string) :
  k ∈ (snd <$> props).*1 ↔ ∃ i v, (i, (k, v)) ∈ props.
Proof.
  split.
  - intros Hk. apply list_elem_of_fmap in Hk as ([k' v] & -> & Hin).
    apply list_elem_of_fmap in Hin as ([i e] & -> & Hin). cbn.
    destruct e as [k'' v']. by exists i, v'.
  - intros (i & v & Hin). apply list_elem_of_fmap. exists (k, v).
    split; [done|]. apply list_elem_of_fmap. by exists (i, (k, v)).
Qed.

Lemma elem_of_named_keys (props : list (string * Scalar)) (k : string) :
  k ∈ props.*1 ↔ ∃ v, (k, v) ∈ props.
Proof.
  split.
  - intros Hk. apply list_elem_of_fmap in Hk as ([k' v] & -> & Hin).
    by exists v.
  - intros (v & Hin). apply list_elem_of_fmap. by exists (k, v).
Qed.

Lemma writes_content (writes : list (string * Scalar))
    (object : OwnProperties) :
  NoDup writes.*1 →
  (∀ key, key ∈ writes.*1 →
          (key ∉ (named object).*1)
          ∧ (key ∉ (snd <$> indexed object).*1)) →
  Forall (λ p, array_index p.2.1 = Some p.1) (indexed object) →
  let result :=
    fold_left (λ object '(key, value), define_property object key value)
              writes object in
  named result
  = named object ++ filter (λ e, array_index e.1 = None) writes
  ∧ snd <$> indexed result
    ≡ₚ (snd <$> indexed object)
       ++ filter (λ e, is_Some (array_index e.1)) writes.
Proof.
  cbn zeta. revert object.
  induction writes as [|[key value] writes IH];
    intros object Hnodup Hfresh Hindexed.
  { cbn. by rewrite !(right_id_L [] (++)). }
  cbn [fold_left]. apply NoDup_cons in Hnodup as [Hkey Hnodup].
  destruct (Hfresh key) as [Hnamed Hindex]; [by left|].
  assert (∀ k, k ∈ writes.*1 → k ≠ key) as Hother.
  { intros k Hk ->. done. }
  destruct (array_index key) as [i|] eqn:Hi.
  - assert (define_property object key value
            = {| indexed := set_indexed i key value (indexed object);
                 named := named object |}) as ->
      by (unfold define_property; by rewrite Hi).
    assert (i ∉ (indexed object).*1) as Hifresh.
    { intros Hin. apply list_elem_of_fmap in Hin as ([j [k v]] & Hj & Hin).
      cbn in Hj. subst j.
      eapply Forall_forall in Hindexed as Hk; [|exact Hin]. cbn in Hk.
      apply Hindex. rewrite (array_index_inj key k i Hi Hk).
      apply elem_of_indexed_keys. by exists i, v. }
    destruct (IH {| indexed := set_indexed i key value (indexed object);
                    named := named object |}) as [Hnam Hidx];
      [done| |cbn|].
    + intros k Hk. destruct (Hfresh k) as [Hk1 Hk2]; [by right|].
      split; [done|]. cbn.
      intros (j & v' & Hin)%elem_of_indexed_keys.
      apply elem_of_set_indexed in Hin as [Heq|Hin].
      * injection Heq as _ Heq _. by apply (Hother k).
      * apply Hk2. apply elem_of_indexed_keys. by exists j, v'.
    + apply Forall_forall.
      intros p [->|Hp]%elem_of_set_indexed; [done|].
      by eapply Forall_forall in Hindexed.
    + cbn in Hnam, Hidx. rewrite Hnam, Hidx. split.
      * by rewrite filter_cons_False by (cbn [fst]; congruence).
      * rewrite filter_cons_True by (cbn [fst]; by rewrite Hi).
        rewrite set_indexed_fresh by done. cbn.
        by rewrite Permutation_middle.
  - assert (define_property object key value
            = {| indexed := indexed object;
                 named := set_named key value (named object) |}) as ->
      by (unfold define_property; by rewrite Hi).
    destruct (IH {| indexed := indexed object;
                    named := set_named key value (named object) |})
      as [Hnam Hidx]; [done| |done|].
    + intros k Hk. destruct (Hfresh k) as [Hk1 Hk2]; [by right|].
      split; [|done]. cbn.
      intros (v' & Hin)%elem_of_named_keys.
      apply elem_of_set_named in Hin as [Heq|Hin].
      * injection Heq as Heq _. by apply (Hother k).
      * apply Hk1. apply elem_of_named_keys. by exists v'.
    + cbn in Hnam, Hidx. rewrite Hnam, Hidx. split.
      * rewrite filter_cons_True by done.
        rewrite set_named_fresh by done. by rewrite <- (assoc_L (++)).
      * by rewrite filter_cons_False
          by (cbn [fst]; rewrite Hi; by intros [? ?]).
Qed.

(** The entries of an object: the array indices first, ascending, then the
    other names; for an object written without repeating a name, the other
    names in the order in which they were written. *)
Lemma Object_entries_order (filters : list (string * Scalar)) :
  ∃ first rest,
    Object_entries filters = first ++ rest
    ∧ StronglySorted index_before first
    ∧ Forall (λ e, is_Some (array_index e.1)) first
    ∧ Forall (λ e, array_index e.1 = None) rest
    ∧ (NoDup filters.*1 →
       first ≡ₚ filter (λ e, is_Some (array_index e.1)) filters
       ∧ rest = filter (λ e, array_index e.1 = None) filters).
Proof.
  destruct (object_of_well_ordered filters) as (Hsorted & Hindexed & Hnamed).
  exists (snd <$> indexed (object_of filters)), (named (object_of filters)).
  split; [done|]. split; [|split; [|split; [done|]]].
  - revert Hsorted Hindexed.
    generalize (indexed (object_of filters)). intros props Hsorted.
    induction Hsorted as [|[i e] props Hsorted IH Hall]; intros Hidx.
    { constructor. }
    apply Forall_cons in Hidx as [Hi Hidx]. cbn in Hi.
    constructor; [by apply IH|].
    apply Forall_fmap, Forall_forall. intros [j e'] Hin.
    eapply Forall_forall in Hall as Hlt; [|exact Hin].
    eapply Forall_forall in Hidx as Hj; [|exact Hin].
    unfold index_before. cbn in *. by rewrite Hi, Hj.
  - apply Forall_fmap. eapply Forall_impl; [exact Hindexed|].
    intros [i e] Hi. cbn in *. by rewrite Hi.
  - intros Hnodup.
    destruct (writes_content filters {| indexed := []; named := [] |})
      as [Hnam Hidx]; [done|by intros; split; intros ?%elem_of_nil|done|].
    by split.
Qed.

Lemma Object_entries_insertion_order (filters : list (string * Scalar)) :
  NoDup filters.*1 →
  Forall (λ e, array_index e.1 = None) filters →
  Object_entries filters = filters.
Proof.
  intros Hnodup Hnames. unfold Object_entries. cbn zeta.
  destruct (writes_content filters {| indexed := []; named := [] |})
    as [Hnam Hidx]; [done|by intros; split; intros ?%elem_of_nil|done|].
  cbn in Hnam, Hidx. fold (object_of filters) in Hnam, Hidx.
  assert (filter (λ e, is_Some (array_index e.1)) filters = []) as Hnone.
  { clear -Hnames. induction Hnames as [|e filters He _ IH]; [done|].
    rewrite filter_cons_False; [done|]. rewrite He. by intros [? ?]. }
  assert (filter (λ e, array_index e.1 = None) filters = filters) as Hall.
  { clear -Hnames. induction Hnames as [|e filters He _ IH]; [done|].
    by rewrite filter_cons_True, IH. }
  rewrite Hnone in Hidx. apply Permutation_nil_r in Hidx.
  change (map snd (indexed (object_of filters)))
    with (snd <$> indexed (object_of filters)).
  by rewrite Hidx, Hnam, Hall.
Qed.

Lemma Object_entries_singleton (key : string) (value : Scalar) :
  Object_entries [(key, value)] = [(key, value)].
Proof.
  unfold Object_entries, object_of, define_property. cbn.
  by destruct (array_index key).
Qed.

(** ** How numbers print *)

Lemma Int_eq (z1 z2 : Z) (safe1 : Is_true (safe_integer z1))
    (safe2 : Is_true (safe_integer z2)) :
  z1 = z2 → Int z1 safe1 = Int z2 safe2.
Proof. intros ->. f_equal. apply proof_irrel. Qed.

Lemma pretty_N_char_digit (x : N) : is_digit (pretty_N_char x) = true.
Proof. unfold pretty_N_char. by repeat case_match. Qed.

Lemma pretty_N_go_digits (x : N) (s : string) :
  string_forallb is_digit s = true →
  string_forallb is_digit (pretty_N_go x s) = true.
Proof.
  revert s. induction (N.lt_wf_0 x) as [x _ IH]; intros s Hs.
  assert (x = 0 ∨ 0 < x)%N as [->|Hpos] by lia.
  - by rewrite pretty_N_go_0.
  - rewrite pretty_N_go_step by done. apply IH.
    + by apply N.div_lt.
    + cbn. by rewrite pretty_N_char_digit.
Qed.

Lemma pretty_N_digits (n : N) : string_forallb is_digit (pretty n) = true.
Proof.
  unfold pretty, pretty_N. case_decide; [done|].
  by apply pretty_N_go_digits.
Qed.

(** The text of an integer: digits, after a minus sign when it is
    negative. *)
Lemma pretty_Z_digits (z : Z) :
  string_forallb is_digit (pretty z) = true
  ∨ ∃ digits, pretty z = "-" +:+ digits
              ∧ string_forallb is_digit digits = true.
Proof.
  destruct z as [|p|p]; [by left| |].
  - left. apply (pretty_N_digits (N.pos p)).
  - right. exists (pretty (N.pos p)). split; [done|].
    apply pretty_N_digits.
Qed.

Lemma Number_toString_inj (n1 n2 : number) :
  Number_toString n1 = Number_toString n2 → n1 = n2.
Proof.
  assert (∀ (z : Z) text,
            string_forallb is_digit text = false →
            (∀ digits, text = "-" +:+ digits →
                       string_forallb is_digit digits = false) →
            pretty (z : Z) ≠ text) as Hother.
  { intros z text Htext Hminus Heq.
    destruct (pretty_Z_digits z) as [Hd|(digits & Hz & Hd)]; [congruence|].
    rewrite Hz in Heq. symmetry in Heq.
    specialize (Hminus digits Heq). congruence. }
  destruct n1 as [z1 safe1| |[]], n2 as [z2 safe2| |[]]; cbn; try done.
  - intros Heq. by apply Int_eq, (inj (pretty : Z → string)).
  - intros Heq; exfalso; revert Heq; apply Hother; [done|].
    intros digits Hdigits.
    change ("-" +:+ digits) with (String "-" digits) in Hdigits.
    by simplify_eq.
  - intros Heq; exfalso; revert Heq; apply Hother; [done|].
    intros digits Hdigits.
    change ("-" +:+ digits) with (String "-" digits) in Hdigits.
    by simplify_eq.
  - intros Heq; exfalso; revert Heq; apply Hother; [done|].
    intros digits Hdigits.
    change ("-" +:+ digits) with (String "-" digits) in Hdigits.
    by simplify_eq.
  - intros Heq; exfalso; symmetry in Heq; revert Heq; apply Hother; [done|].
    intros digits Hdigits.
    change ("-" +:+ digits) with (String "-" digits) in Hdigits.
    by simplify_eq.
  - intros Heq; exfalso; symmetry in Heq; revert Heq; apply Hother; [done|].
    intros digits Hdigits.
    change ("-" +:+ digits) with (String "-" digits) in Hdigits.
    by simplify_eq.
  - intros Heq; exfalso; symmetry in Heq; revert Heq; apply Hother; [done|].
    intros digits Hdigits.
    change ("-" +:+ digits) with (String "-" digits) in Hdigits.
    by simplify_eq.
Qed.

Lemma truthy_number_spec (n : number) :
  truthy_number n = true ↔ n ≠ NaN ∧ ∀ safe, n ≠ Int 0 safe.
Proof.
  destruct n as [z safe| |negative]; cbn.
  - rewrite negb_true_iff, Z.eqb_neq. split.
    + intros Hz. split; [done|]. intros safe' [= ->]. done.
    + intros [_ Hzero] ->. by apply (Hzero safe).
  - split; [done|]. by intros [? _].
  - split; [|done]. intros _. split; [done|]. by intros safe.
Qed.

(** C4, as the code has it. [fetchFilteredData] appends one parameter per
    own property of the filter object, the value in its string form, in the
    order in which [Object.entries] enumerates them: the names that are
    array indices first, in ascending numeric order, then the other names in
    the order in which they were inserted. Then come [_sort], [_order],
    [_limit], [_start], in that order, for the options that are set to a
    truthy value. The query string is the form-urlencoded serialization of
    these parameters, joined with ampersands after "/<resource>?". The
    specification's example yields "name=Lea&_sort=name&_order=asc&_limit=5". *)
Theorem fetchFilteredData_query_string (fetch : Transport)
    (resource : string) (filters : list (string * Scalar))
    (options : option FilterOptions) (trace : list Event) :
  let given := default no_filter_options options in
  let shown value :=
    match value with
    | SString s => s
    | SNumber n => Number_toString n
    end in
  let params :=
    map (λ entry, (entry.1, shown entry.2)) (Object_entries filters)
    ++ match sortBy given with
       | Some field => if truthy_string field then [("_sort", field)] else []
       | None => []
       end
    ++ match order given with
       | Some asc => [("_order", "asc")]
       | Some desc => [("_order", "desc")]
       | None => []
       end
    ++ match limit given with
       | Some n =>
           if truthy_number n then [("_limit", Number_toString n)] else []
       | None => []
       end
    ++ match start given with
       | Some n =>
           if truthy_number n then [("_start", Number_toString n)] else []
       | None => []
       end in
  let query := String.concat "&" (map urlencoded_tuple params) in
  fetchFilteredData_queryParams filters options = params
  ∧ fetchFilteredData_endpoint resource filters options
    = "/" +:+ resource +:+ "?" +:+ query
  ∧ requests_in
      (fetchFilteredData fetch resource filters options trace).1
    = requests_in trace
      ++ [(BASE_URL +:+ "/" +:+ resource +:+ "?" +:+ query, bare_config)]
  ∧ (∃ first rest,
       Object_entries filters = first ++ rest
       ∧ StronglySorted index_before first
       ∧ Forall (λ e, is_Some (array_index e.1)) first
       ∧ Forall (λ e, array_index e.1 = None) rest
       ∧ (NoDup filters.*1 →
          first ≡ₚ filter (λ e, is_Some (array_index e.1)) filters
          ∧ rest = filter (λ e, array_index e.1 = None) filters))
  ∧ (NoDup filters.*1 →
     Forall (λ e, array_index e.1 = None) filters →
     Object_entries filters = filters)
  ∧ fetchFilteredData_endpoint "users" [("name", SString "Lea")]
      (Some {| sortBy := Some "name"; order := Some asc;
               limit := Some (Int 5 I); start := None |})
    = "/users?name=Lea&_sort=name&_order=asc&_limit=5"
  ∧ fetchFilteredData_endpoint "posts" [("userId", SNumber (Int 1 I))]
      (Some {| sortBy := Some "id"; order := Some desc;
               limit := None; start := Some (Int (-20) I) |})
    = "/posts?userId=1&_sort=id&_order=desc&_start=-20".
Proof.
  intros given shown params query.
  assert (fetchFilteredData_queryParams filters options = params) as Hparams.
  { rewrite fetchFilteredData_queryParams_eq. unfold params.
    apply (f_equal2 app).
    - unfold filter_params. apply map_ext. by intros [key []].
    - fold given. unfold option_params, param_if_set.
      by destruct (order given) as [[]|]. }
  assert (fetchFilteredData_endpoint resource filters options
          = "/" +:+ resource +:+ "?" +:+ query) as Hendpoint.
  { unfold fetchFilteredData_endpoint. unfold query.
    by rewrite URLSearchParams_toString_concat, Hparams. }
  split; [done|]. split; [exact Hendpoint|].
  split; [unfold fetchFilteredData; by rewrite bare_request, Hendpoint|].
  split; [apply Object_entries_order|].
  split; [apply Object_entries_insertion_order|].
  split; by vm_compute.
Qed.

Lemma fetchFilteredData_query_string_witness :
  Object_entries [("name_like", SString "Lea"); ("userId", SNumber (Int 1 I))]
  = [("name_like", SString "Lea"); ("userId", SNumber (Int 1 I))].
Proof.
  apply (fetchFilteredData_query_string fetch_ok "users"
           [("name_like", SString "Lea"); ("userId", SNumber (Int 1 I))]
           None [] : _ ∧ _ ∧ _ ∧ _ ∧ _).
  - apply (bool_decide_unpack _). by vm_compute.
  - apply (bool_decide_unpack _). by vm_compute.
Defined.

(** C4 as stated fails for a filter object that has array indices among its
    names: written as [{name: "x", 2: "b", 1: "a"}], it is enumerated with
    the indices first and ascending, so the parameters do not follow the
    insertion order. It also fails for an option that is set to a falsy
    value: [limit: 0] is set and yields no [_limit]. *)
Lemma fetchFilteredData_index_keys_first :
  fetchFilteredData_endpoint "users"
    [("name", SString "x"); ("2", SString "b"); ("1", SString "a")] None
  = "/users?1=a&2=b&name=x"
  ∧ fetchFilteredData_endpoint "users"
      [("name", SString "x"); ("2", SString "b"); ("1", SString "a")] None
    ≠ "/users?name=x&2=b&1=a"
  ∧ fetchFilteredData_endpoint "users" [("name", SString "x")]
      (Some {| sortBy := None; order := None;
               limit := Some (Int 0 I); start := None |})
    = "/users?name=x".
Proof. split; [by vm_compute|]. split; [by vm_compute|by vm_compute]. Qed.

(** C5. An option that is present but falsy is omitted exactly as if it were
    unset: the endpoint and the whole call are those of the options with the
    falsy members removed; with [limit: 0] no [_limit] parameter is appended
    after the filter entries, and with [start: 0] no [_start] parameter. The
    same holds for the other falsy number, [NaN]. *)
Theorem fetchFilteredData_falsy_option_omitted (fetch : Transport)
    (resource : string) (filters : Filters) (options : FilterOptions) :
  fetchFilteredData_endpoint resource filters (Some options)
  = fetchFilteredData_endpoint resource filters (Some (unset_falsy options))
  ∧ fetchFilteredData fetch resource filters (Some options)
    = fetchFilteredData fetch resource filters (Some (unset_falsy options))
  ∧ (limit options = Some (Int 0 I) ∨ limit options = Some NaN →
     limit (unset_falsy options) = None
     ∧ ∃ appended,
         fetchFilteredData_queryParams filters (Some options)
         = filter_params filters ++ appended
         ∧ ∀ value, ("_limit", value) ∉ appended)
  ∧ (start options = Some (Int 0 I) ∨ start options = Some NaN →
     start (unset_falsy options) = None
     ∧ ∃ appended,
         fetchFilteredData_queryParams filters (Some options)
         = filter_params filters ++ appended
         ∧ ∀ value, ("_start", value) ∉ appended).
Proof.
  assert (option_params options = option_params (unset_falsy options))
    as Hparams.
  { destruct options as [sort ord lim st].
    unfold option_params, unset_falsy, unset_if_falsy, param_if_set. cbn.
    destruct sort as [sort|]; cbn; [destruct (truthy_string sort) eqn:Hs|];
      (destruct lim as [lim|]; cbn; [destruct (truthy_number lim) eqn:Hl|]);
      (destruct st as [st|]; cbn; [destruct (truthy_number st) eqn:Hst|]);
      cbn; by rewrite ?Hs, ?Hl, ?Hst. }
  assert (fetchFilteredData_endpoint resource filters (Some options)
          = fetchFilteredData_endpoint resource filters
              (Some (unset_falsy options))) as Hendpoint.
  { unfold fetchFilteredData_endpoint.
    rewrite !fetchFilteredData_queryParams_eq. cbn. by rewrite Hparams. }
  split; [exact Hendpoint|].
  split; [unfold fetchFilteredData; by rewrite Hendpoint|].
  split.
  - intros Hlimit.
    assert (truthy_opt truthy_number (limit options) = false) as Hfalsy
      by by destruct Hlimit as [-> | ->].
    split.
    { unfold unset_falsy, unset_if_falsy. cbn. by rewrite Hfalsy. }
    exists (option_params options).
    split; [apply fetchFilteredData_queryParams_eq|].
    intros value. unfold option_params. rewrite !elem_of_app.
    intros [Hin | [Hin | [Hin | Hin]]];
      apply param_if_set_name in Hin as [Hname Htruthy];
      cbn in Hname; congruence.
  - intros Hstart.
    assert (truthy_opt truthy_number (start options) = false) as Hfalsy
      by by destruct Hstart as [-> | ->].
    split.
    { unfold unset_falsy, unset_if_falsy. cbn. by rewrite Hfalsy. }
    exists (option_params options).
    split; [apply fetchFilteredData_queryParams_eq|].
    intros value. unfold option_params. rewrite !elem_of_app.
    intros [Hin | [Hin | [Hin | Hin]]];
      apply param_if_set_name in Hin as [Hname Htruthy];
      cbn in Hname; congruence.
Qed.

Lemma fetchFilteredData_falsy_option_omitted_witness :
  fetchFilteredData_endpoint "users" [("name", SString "Lea")]
    (Some {| sortBy := None; order := None;
             limit := Some (Int 0 I); start := Some (Int 0 I) |})
  = fetchFilteredData_endpoint "users" [("name", SString "Lea")]
      (Some no_filter_options).
Proof.
  apply (fetchFilteredData_falsy_option_omitted fetch_ok "users"
           [("name", SString "Lea")]
           {| sortBy := None; order := None;
              limit := Some (Int 0 I); start := Some (Int 0 I) |}).
Defined.

(** C6. With no search term (the default, the empty string) [fetchData]
    requests the bare path "/<resource>"; with a search term [t] it requests
    "/<resource>?<field>_like=<t>", the term inserted as it is. So
    [fetchData("users", "name")] requests "/users" and
    [fetchData("users", "name", "Lea")] requests "/users?name_like=Lea". *)
Theorem fetchData_request (fetch : Transport) (resource searchField : string)
    (searchTerm : option string) (trace : list Event) :
  (searchTerm = None ∨ searchTerm = Some EmptyString →
   fetchData_endpoint resource searchField searchTerm = "/" +:+ resource
   ∧ requests_in (fetchData fetch resource searchField searchTerm trace).1
     = requests_in trace ++ [(BASE_URL +:+ "/" +:+ resource, bare_config)])
  ∧ (∀ term,
       searchTerm = Some term → term ≠ EmptyString →
       fetchData_endpoint resource searchField searchTerm
       = "/" +:+ resource +:+ "?" +:+ searchField +:+ "_like=" +:+ term
       ∧ requests_in (fetchData fetch resource searchField searchTerm trace).1
         = requests_in trace
           ++ [(BASE_URL +:+ "/" +:+ resource +:+ "?" +:+ searchField
                  +:+ "_like=" +:+ term,
                bare_config)])
  ∧ fetchData_endpoint "users" "name" None = "/users"
  ∧ fetchData_endpoint "users" "name" (Some "Lea") = "/users?name_like=Lea".
Proof.
  split; [|split; [|by split]].
  - intros Hterm.
    assert (fetchData_endpoint resource searchField searchTerm
            = "/" +:+ resource) as Hendpoint by by destruct Hterm as [-> | ->].
    split; [done|]. unfold fetchData. by rewrite bare_request, Hendpoint.
  - intros term -> Hterm.
    assert (fetchData_endpoint resource searchField (Some term)
            = "/" +:+ resource +:+ "?" +:+ searchField +:+ "_like=" +:+ term)
      as Hendpoint by by destruct term.
    split; [done|]. unfold fetchData. by rewrite bare_request, Hendpoint.
Qed.

Lemma fetchData_request_witness :
  requests_in (fetchData fetch_ok "users" "name" None []).1
    = [("https://jsonplaceholder.typicode.com/users", bare_config)]
  ∧ requests_in (fetchData fetch_ok "users" "name" (Some "Lea") []).1
    = [("https://jsonplaceholder.typicode.com/users?name_like=Lea",
        bare_config)].
Proof.
  split.
  - apply (fetchData_request fetch_ok "users" "name" None []). by left.
  - apply (fetchData_request fetch_ok "users" "name" (Some "Lea") [] : _ ∧ _)
      with (term := "Lea"); [reflexivity|discriminate].
Defined.

(** ** The user service *)

(** C8, as the code has it. [deleteUser] issues exactly one request, with
    method DELETE, to "/users/<id>" under the base URL; when the response has
    the success flag on and its body decodes as JSON, the promise resolves to
    no value: the decoded body is dropped. *)
Theorem deleteUser_request (fetch : Transport) (userId : number)
    (authToken : option string) (trace : list Event) :
  let url := BASE_URL +:+ "/users/" +:+ Number_toString userId in
  let config :=
    {| method := Some "DELETE";
       headers := Some (config_headers
                          {| method := Some "DELETE"; headers := None;
                             body := None |} authToken);
       body := None |} in
  requests_in (deleteUser fetch userId authToken trace).1
  = requests_in trace ++ [(url, config)]
  ∧ (∀ response data,
       fetch url config = Fulfilled response → ok response = true →
       json response = Fulfilled data →
       deleteUser fetch userId authToken trace
       = (trace ++ [EvFetch url config], Resolved tt)).
Proof.
  cbn zeta. unfold deleteUser, mbind, Async_bind.
  pose proof (apiClient_request fetch
                ("/users/" +:+ Number_toString userId)
                (Some {| method := Some "DELETE"; headers := None;
                         body := None |}) authToken trace) as Hreq.
  rewrite apiClient_unfold in *. cbn zeta in *.
  unfold request_url, request_config, make_config in *. cbn in *.
  split.
  - by destruct (fetch _ _) as [response|reason];
      [destruct (ok response); [destruct (json response)|]|].
  - by intros response data -> -> ->.
Qed.

Lemma deleteUser_request_witness :
  deleteUser fetch_ok (Int 7 I) (Some "test-token") []
  = ([EvFetch "https://jsonplaceholder.typicode.com/users/7"
        {| method := Some "DELETE";
           headers := Some {[ "Authorization" := "Bearer test-token";
                              "Content-Type" := "application/json" ]};
           body := None |}],
     Resolved tt).
Proof.
  apply (deleteUser_request fetch_ok (Int 7 I) (Some "test-token") [] : _ ∧ _)
    with (response := response_ok) (data := leanne); reflexivity.
Defined.

(** C8 as stated fails for a successful response that carries no JSON: the
    success flag is on, the user is deleted, and [deleteUser] rejects with
    the decoder's error, because [apiClient] decodes the body of every
    successful response before [deleteUser] drops it. *)
Lemma deleteUser_rejects_empty_success :
  fetch_204 (BASE_URL +:+ "/users/7")
    {| method := Some "DELETE";
       headers := Some {[ "Content-Type" := "application/json" ]};
       body := None |}
  = Fulfilled response_204
  ∧ ok response_204 = true
  ∧ (deleteUser fetch_204 (Int 7 I) None []).2 = Rejected (Foreign bad_json)
  ∧ (deleteUser fetch_204 (Int 7 I) None []).2 ≠ Resolved tt.
Proof. split; [done|]. split; [done|]. split; [by vm_compute|done]. Qed.

(** ** The helpers and the executor *)

(** C9. [fetchData] and [fetchFilteredData] call [apiClient] with the
    endpoint only: no options, no token. Whatever their arguments, the one
    request each of them issues has no method and no body of its own, and its
    headers are exactly "Content-Type: application/json": there is never an
    Authorization header. *)
Theorem helpers_send_bare_requests (fetch : Transport)
    (resource searchField : string) (searchTerm : option string)
    (filters : Filters) (options : option FilterOptions)
    (trace : list Event) :
  fetchData fetch resource searchField searchTerm
  = apiClient fetch (fetchData_endpoint resource searchField searchTerm)
      None None
  ∧ fetchFilteredData fetch resource filters options
    = apiClient fetch (fetchFilteredData_endpoint resource filters options)
        None None
  ∧ requests_in (fetchData fetch resource searchField searchTerm trace).1
    = requests_in trace
      ++ [(BASE_URL +:+ fetchData_endpoint resource searchField searchTerm,
           bare_config)]
  ∧ requests_in (fetchFilteredData fetch resource filters options trace).1
    = requests_in trace
      ++ [(BASE_URL +:+ fetchFilteredData_endpoint resource filters options,
           bare_config)]
  ∧ method bare_config = None
  ∧ body bare_config = None
  ∧ ∃ sent,
      headers bare_config = Some sent
      ∧ sent !! "Authorization" = None
      ∧ sent !! "Content-Type" = Some "application/json"
      ∧ dom sent = {[ "Content-Type" ]}.
Proof.
  split; [done|]. split; [done|].
  split; [apply bare_request|]. split; [apply bare_request|].
  split; [done|]. split; [done|].
  eexists. split; [reflexivity|].
  split; [done|]. split; [done|]. by rewrite dom_singleton_L.
Qed.

(** C10. With no filter entries and no truthy option, [fetchFilteredData]
    requests "/<resource>?": the question mark is appended even though the
    query string is empty, whereas [fetchData] without a term requests
    "/<resource>". *)
Theorem fetchFilteredData_empty_query (fetch : Transport)
    (resource searchField : string) (options : option FilterOptions)
    (trace : list Event) :
  all_falsy options = true →
  fetchFilteredData_endpoint resource [] options = "/" +:+ resource +:+ "?"
  ∧ requests_in (fetchFilteredData fetch resource [] options trace).1
    = requests_in trace
      ++ [(BASE_URL +:+ "/" +:+ resource +:+ "?", bare_config)]
  ∧ fetchData_endpoint resource searchField None = "/" +:+ resource
  ∧ fetchFilteredData_endpoint resource [] options
    ≠ fetchData_endpoint resource searchField None.
Proof.
  intros Hfalsy.
  assert (fetchFilteredData_endpoint resource [] options
          = "/" +:+ resource +:+ "?") as Hendpoint.
  { unfold fetchFilteredData_endpoint.
    by rewrite fetchFilteredData_queryParams_eq, option_params_all_falsy. }
  split; [exact Hendpoint|].
  split; [unfold fetchFilteredData; by rewrite bare_request, Hendpoint|].
  split; [done|].
  rewrite Hendpoint. cbn.
  rewrite <- (string_app_nil_r resource) at 2.
  intros [= Heq]. by apply (inj (String.app resource)) in Heq.
Qed.

Lemma fetchFilteredData_empty_query_witness :
  all_falsy (Some {| sortBy := Some EmptyString; order := None;
                     limit := Some (Int 0 I); start := None |}) = true
  ∧ requests_in
      (fetchFilteredData fetch_ok "users" []
         (Some {| sortBy := Some EmptyString; order := None;
                  limit := Some (Int 0 I); start := None |}) []).1
    = [("https://jsonplaceholder.typicode.com/users?", bare_config)].
Proof.
  split; [reflexivity|].
  apply (fetchFilteredData_empty_query fetch_ok "users" "name"
           (Some {| sortBy := Some EmptyString; order := None;
                    limit := Some (Int 0 I); start := None |}) []).
  reflexivity.
Defined.

(** ** What the executor reads from a response *)

(** X1. [apiClient] decodes the body only when the success flag is on and
    reads the status only when it is off: two transports whose responses
    agree on the flag, and on the status (flag off) or on the decoded body
    (flag on), give the same trace and the same outcome. *)
Theorem apiClient_reads_only_what_it_needs (fetch1 fetch2 : Transport)
    (endpoint : string) (options : option ApiClientOptions)
    (authToken : option string) (trace : list Event)
    (response1 response2 : Response) :
  fetch1 (request_url endpoint) (request_config options authToken)
    = Fulfilled response1 →
  fetch2 (request_url endpoint) (request_config options authToken)
    = Fulfilled response2 →
  ok response1 = ok response2 →
  (if ok response1
   then json response1 = json response2
   else status response1 = status response2) →
  apiClient fetch1 endpoint options authToken trace
  = apiClient fetch2 endpoint options authToken trace.
Proof.
  intros H1 H2 Hok Hrest. rewrite !apiClient_unfold. cbn zeta.
  rewrite H1, H2, <- Hok. destruct (ok response1).
  - by rewrite Hrest.
  - unfold http_error. by rewrite Hrest.
Qed.

Lemma apiClient_reads_only_what_it_needs_witness :
  apiClient fetch_404 "/users/1" None None []
  = apiClient fetch_404_garbled "/users/1" None None [].
Proof.
  apply (apiClient_reads_only_what_it_needs fetch_404 fetch_404_garbled
           "/users/1" None None [] response_404 response_404_garbled);
    reflexivity.
Defined.

(** ** The user service *)

Lemma config_headers_service (options : ApiClientOptions)
    (authToken : option string) :
  headers options = None →
  config_headers options authToken = service_headers authToken.
Proof.
  intros Hnone. rewrite config_headers_union, Hnone. cbn.
  rewrite (left_id_L ∅ (∪)).
  destruct authToken as [[|c token]|]; cbn.
  - by rewrite (left_id_L ∅ (∪)).
  - by rewrite <- insert_union_singleton_l.
  - by rewrite (left_id_L ∅ (∪)).
Qed.

(** A call with a method and a body of the service's choosing and no headers
    of its own. *)
Lemma service_call (fetch : Transport) (endpoint : string)
    (verb payload : option string) (authToken : option string)
    (trace : list Event) :
  let url := BASE_URL +:+ endpoint in
  let config := {| method := verb;
                   headers := Some (service_headers authToken);
                   body := payload |} in
  apiClient fetch endpoint
    (Some {| method := verb; headers := None; body := payload |})
    authToken trace
  = match fetch url config with
    | Failed reason => failed_call trace url config (Foreign reason)
    | Fulfilled response =>
        if ok response
        then match json response with
             | Fulfilled data =>
                 (trace ++ [EvFetch url config], Resolved data)
             | Failed reason => failed_call trace url config (Foreign reason)
             end
        else failed_call trace url config (http_error response)
    end.
Proof.
  cbn zeta. rewrite apiClient_unfold. cbn zeta.
  unfold request_url, request_config, make_config. cbn.
  by rewrite config_headers_service.
Qed.

Lemma service_request (fetch : Transport) (endpoint : string)
    (verb payload : option string) (authToken : option string)
    (trace : list Event) :
  requests_in
    (apiClient fetch endpoint
       (Some {| method := verb; headers := None; body := payload |})
       authToken trace).1
  = requests_in trace
    ++ [(BASE_URL +:+ endpoint,
         {| method := verb; headers := Some (service_headers authToken);
            body := payload |})].
Proof.
  rewrite apiClient_request. unfold request_url, request_config, make_config.
  cbn. by rewrite config_headers_service.
Qed.

Lemma user_url_inj (id1 id2 : number) :
  BASE_URL +:+ "/users/" +:+ Number_toString id1
  = BASE_URL +:+ "/users/" +:+ Number_toString id2 →
  id1 = id2.
Proof.
  intros Heq. apply (inj (String.app BASE_URL)) in Heq.
  apply (inj (String.app "/users/")) in Heq.
  by apply Number_toString_inj.
Qed.

(** X2. [getUsers] issues one request to "/users" under the base URL, with no
    method and no body of its own and with the service headers; when the
    response is successful and decodes, it resolves to the decoded value.
    Without a token (or with the empty one) it is the same computation as
    [fetchData("users", field)] without a search term. *)
Theorem getUsers_request (fetch : Transport) (authToken : option string)
    (trace : list Event) :
  let url := BASE_URL +:+ "/users" in
  let config := {| method := None;
                   headers := Some (service_headers authToken);
                   body := None |} in
  requests_in (getUsers fetch authToken trace).1
  = requests_in trace ++ [(url, config)]
  ∧ (∀ response data,
       fetch url config = Fulfilled response → ok response = true →
       json response = Fulfilled data →
       getUsers fetch authToken trace
       = (trace ++ [EvFetch url config], Resolved data))
  ∧ (∀ field,
       (authToken = None ∨ authToken = Some EmptyString) →
       getUsers fetch authToken trace
       = fetchData fetch "users" field None trace).
Proof.
  cbn zeta. unfold getUsers, no_options.
  split; [apply service_request|]. split.
  - intros response data Hfetch Hok Hjson.
    rewrite service_call. cbn zeta. by rewrite Hfetch, Hok, Hjson.
  - intros field Htoken. unfold fetchData. cbn.
    rewrite !apiClient_unfold. cbn zeta.
    by destruct Htoken as [-> | ->].
Qed.

Lemma getUsers_request_witness :
  getUsers fetch_ok (Some "test-token") []
  = ([EvFetch "https://jsonplaceholder.typicode.com/users"
        {| method := None;
           headers := Some {[ "Authorization" := "Bearer test-token";
                              "Content-Type" := "application/json" ]};
           body := None |}],
     Resolved leanne).
Proof.
  apply (getUsers_request fetch_ok (Some "test-token") [] : _ ∧ _)
    with (response := response_ok); reflexivity.
Defined.

(** X3. [getUserById] issues one request to "/users/<id>" under the base URL,
    the id printed as the template literal prints it (the decimal digits of a
    safe integer, with its sign; [NaN] by name: the id is not validated),
    with no method and no body of its own, and resolves to the decoded body
    of a successful response. *)
Theorem getUserById_request (fetch : Transport) (userId : number)
    (authToken : option string) (trace : list Event) :
  let url := BASE_URL +:+ "/users/" +:+ Number_toString userId in
  let config := {| method := None;
                   headers := Some (service_headers authToken);
                   body := None |} in
  requests_in (getUserById fetch userId authToken trace).1
  = requests_in trace ++ [(url, config)]
  ∧ (∀ response data,
       fetch url config = Fulfilled response → ok response = true →
       json response = Fulfilled data →
       getUserById fetch userId authToken trace
       = (trace ++ [EvFetch url config], Resolved data))
  ∧ (∀ z safe,
       userId = Int z safe → url = BASE_URL +:+ "/users/" +:+ pretty z)
  ∧ (userId = NaN → url = BASE_URL +:+ "/users/NaN").
Proof.
  cbn zeta. unfold getUserById, no_options.
  split; [apply service_request|]. split.
  - intros response data Hfetch Hok Hjson.
    rewrite service_call. cbn zeta. by rewrite Hfetch, Hok, Hjson.
  - split; [by intros z safe ->|by intros ->].
Qed.

Lemma getUserById_request_witness :
  getUserById fetch_ok (Int 1 I) None []
  = ([EvFetch "https://jsonplaceholder.typicode.com/users/1" bare_config],
     Resolved leanne).
Proof.
  apply (getUserById_request fetch_ok (Int 1 I) None [] : _ ∧ _)
    with (response := response_ok); reflexivity.
Defined.

(** X4. [createUser] issues one POST request to "/users" under the base URL
    whose body is [JSON.stringify(userData)], with the service headers; when
    the response is successful it resolves to the body the server returned,
    decoded, whatever [userData] was. *)
Theorem createUser_request (fetch : Transport) (userData : JSON)
    (authToken : option string) (trace : list Event) :
  let url := BASE_URL +:+ "/users" in
  let config := {| method := Some "POST";
                   headers := Some (service_headers authToken);
                   body := Some (JsonText.stringify userData) |} in
  requests_in (createUser fetch userData authToken trace).1
  = requests_in trace ++ [(url, config)]
  ∧ (∀ response data,
       fetch url config = Fulfilled response → ok response = true →
       json response = Fulfilled data →
       createUser fetch userData authToken trace
       = (trace ++ [EvFetch url config], Resolved data)).
Proof.
  cbn zeta. unfold createUser.
  split; [apply service_request|].
  intros response data Hfetch Hok Hjson.
  rewrite service_call. cbn zeta. by rewrite Hfetch, Hok, Hjson.
Qed.

Lemma createUser_request_witness :
  createUser fetch_ok john (Some "your-auth-token") []
  = ([EvFetch "https://jsonplaceholder.typicode.com/users"
        {| method := Some "POST";
           headers := Some {[ "Authorization" := "Bearer your-auth-token";
                              "Content-Type" := "application/json" ]};
           body := Some (JsonText.stringify john) |}],
     Resolved leanne).
Proof.
  apply (createUser_request fetch_ok john (Some "your-auth-token") []
         : _ ∧ _) with (response := response_ok); reflexivity.
Defined.

(** X5. [updateUser] issues one PUT request to "/users/<id>" under the base
    URL whose body is [JSON.stringify(updatedData)], with the service
    headers, and resolves to the decoded body of a successful response. *)
Theorem updateUser_request (fetch : Transport) (userId : number)
    (updatedData : JSON) (authToken : option string) (trace : list Event) :
  let url := BASE_URL +:+ "/users/" +:+ Number_toString userId in
  let config := {| method := Some "PUT";
                   headers := Some (service_headers authToken);
                   body := Some (JsonText.stringify updatedData) |} in
  requests_in (updateUser fetch userId updatedData authToken trace).1
  = requests_in trace ++ [(url, config)]
  ∧ (∀ response data,
       fetch url config = Fulfilled response → ok response = true →
       json response = Fulfilled data →
       updateUser fetch userId updatedData authToken trace
       = (trace ++ [EvFetch url config], Resolved data)).
Proof.
  cbn zeta. unfold updateUser.
  split; [apply service_request|].
  intros response data Hfetch Hok Hjson.
  rewrite service_call. cbn zeta. by rewrite Hfetch, Hok, Hjson.
Qed.

Lemma updateUser_request_witness :
  updateUser fetch_ok (Int 7 I) john None []
  = ([EvFetch "https://jsonplaceholder.typicode.com/users/7"
        {| method := Some "PUT";
           headers := Some {[ "Content-Type" := "application/json" ]};
           body := Some (JsonText.stringify john) |}],
     Resolved leanne).
Proof.
  apply (updateUser_request fetch_ok (Int 7 I) john None [] : _ ∧ _)
    with (response := response_ok); reflexivity.
Defined.

Lemma deleteUser_run (fetch : Transport) (userId : number)
    (authToken : option string) (trace : list Event) :
  let url := BASE_URL +:+ "/users/" +:+ Number_toString userId in
  let config := {| method := Some "DELETE";
                   headers := Some (service_headers authToken);
                   body := None |} in
  deleteUser fetch userId authToken trace
  = match fetch url config with
    | Failed reason =>
        (trace ++ [EvFetch url config;
                   EvConsoleError "API call failed:" (Foreign reason)],
         Rejected (Foreign reason))
    | Fulfilled response =>
        if ok response
        then match json response with
             | Fulfilled _ => (trace ++ [EvFetch url config], Resolved tt)
             | Failed reason =>
                 (trace ++ [EvFetch url config;
                            EvConsoleError "API call failed:"
                              (Foreign reason)],
                  Rejected (Foreign reason))
             end
        else (trace ++ [EvFetch url config;
                        EvConsoleError "API call failed:"
                          (http_error response)],
              Rejected (http_error response))
    end.
Proof.
  cbn zeta. unfold deleteUser, mbind, Async_bind.
  rewrite service_call. cbn zeta. unfold failed_call.
  destruct (fetch _ _) as [response|reason]; [|done].
  destruct (ok response); [|done]. by destruct (json response).
Qed.

(** X6. [deleteUser] rejects whenever its request fails, with the reason that
    [apiClient] logged: the transport's rejection, the status error, and also
    the decoder's rejection when a successful response (a 204 with an empty
    body, say) carries no JSON. It resolves only if the response was
    successful and its body decoded, although the body is then dropped. *)
Theorem deleteUser_failure (fetch : Transport) (userId : number)
    (authToken : option string) (trace : list Event) :
  let url := BASE_URL +:+ "/users/" +:+ Number_toString userId in
  let config := {| method := Some "DELETE";
                   headers := Some (service_headers authToken);
                   body := None |} in
  let rejected e :=
    (trace ++ [EvFetch url config; EvConsoleError "API call failed:" e],
     @Rejected unit e) in
  (∀ reason,
     fetch url config = Failed reason →
     deleteUser fetch userId authToken trace = rejected (Foreign reason))
  ∧ (∀ response,
       fetch url config = Fulfilled response → ok response = false →
       deleteUser fetch userId authToken trace
       = rejected (NewError ("HTTP error! Status: "
                               +:+ Number_toString (status response))))
  ∧ (∀ response reason,
       fetch url config = Fulfilled response → ok response = true →
       json response = Failed reason →
       deleteUser fetch userId authToken trace = rejected (Foreign reason))
  ∧ ((deleteUser fetch userId authToken trace).2 = Resolved tt →
     ∃ response data,
       fetch url config = Fulfilled response ∧ ok response = true
       ∧ json response = Fulfilled data).
Proof.
  cbn zeta. rewrite deleteUser_run. cbn zeta. repeat split.
  - by intros reason ->.
  - by intros response -> ->.
  - by intros response reason -> -> ->.
  - destruct (fetch _ _) as [response|reason]; cbn; [|done].
    destruct (ok response) eqn:Hok; cbn; [|done].
    destruct (json response) as [data|reason] eqn:Hjson; cbn; [|done].
    intros _. by exists response, data.
Qed.

Lemma deleteUser_failure_witness :
  deleteUser fetch_204 (Int 7 I) None []
  = ([EvFetch "https://jsonplaceholder.typicode.com/users/7"
        {| method := Some "DELETE";
           headers := Some {[ "Content-Type" := "application/json" ]};
           body := None |};
      EvConsoleError "API call failed:" (Foreign bad_json)],
     Rejected (Foreign bad_json)).
Proof.
  apply (deleteUser_failure fetch_204 (Int 7 I) None [] : _ ∧ _ ∧ _)
    with (response := response_204); reflexivity.
Defined.

(** X7. Reading, updating and deleting a user address the same URL, and two
    different ids (safe integers, [NaN], the infinities) are addressed by
    different URLs: the texts of different numbers differ. *)
Theorem user_requests_address_one_user (fetch : Transport)
    (id1 id2 : number) (updatedData : JSON) (authToken : option string)
    (trace : list Event) :
  (requests_in (updateUser fetch id1 updatedData authToken trace).1).*1
  = (requests_in (getUserById fetch id1 authToken trace).1).*1
  ∧ (requests_in (deleteUser fetch id1 authToken trace).1).*1
    = (requests_in (getUserById fetch id1 authToken trace).1).*1
  ∧ (id1 ≠ id2 →
     (requests_in (getUserById fetch id1 authToken trace).1).*1
     ≠ (requests_in (getUserById fetch id2 authToken trace).1).*1).
Proof.
  assert (∀ id, (requests_in (getUserById fetch id authToken trace).1).*1
                = (requests_in trace).*1
                  ++ [BASE_URL +:+ "/users/" +:+ Number_toString id])
    as Hget.
  { intros id. unfold getUserById, no_options.
    by rewrite service_request, fmap_app. }
  rewrite !Hget. split; [|split].
  - unfold updateUser. by rewrite service_request, fmap_app.
  - assert ((deleteUser fetch id1 authToken trace).1
            = (apiClient fetch ("/users/" +:+ Number_toString id1)
                 (Some {| method := Some "DELETE"; headers := None;
                          body := None |}) authToken trace).1) as ->.
    { unfold deleteUser, mbind, Async_bind.
      by destruct (apiClient _ _ _ _ _) as [trace' [data|e]]. }
    by rewrite service_request, fmap_app.
  - intros Hne Heq. apply app_inv_head in Heq.
    apply (f_equal head) in Heq. apply (inj Some) in Heq.
    by apply Hne, user_url_inj.
Qed.

Lemma user_requests_address_one_user_witness :
  (requests_in (getUserById fetch_ok (Int 1 I) None []).1).*1
  ≠ (requests_in (getUserById fetch_ok (Int 2 I) None []).1).*1.
Proof.
  apply (user_requests_address_one_user fetch_ok (Int 1 I) (Int 2 I) JNull None []).
  discriminate.
Defined.

(** ** The demo script *)

(** X8. [fetchUsers] never rejects. When the client resolves, the script
    prints the decoded user once on [console.log]; when the client rejects,
    the script catches the error and writes it to the diagnostic stream a
    second time, after the client's own line, and prints nothing else. *)
Theorem fetchUsers_never_rejects (fetch : Transport)
    (trace : list ScriptEvent) :
  let request :=
    EvClient (EvFetch (BASE_URL +:+ "/users/1") bare_config) in
  (fetchUsers fetch trace).2 = Resolved tt
  ∧ (∀ users,
       (apiClient fetch "/users/1" None None []).2 = Resolved users →
       (fetchUsers fetch trace).1
       = trace ++ [request; EvConsoleLog "Fetched users:" users])
  ∧ (∀ error,
       (apiClient fetch "/users/1" None None []).2 = Rejected error →
       (fetchUsers fetch trace).1
       = trace ++ [request;
                   EvClient (EvConsoleError "API call failed:" error);
                   EvClient (EvConsoleError "Error fetching users:" error)]).
Proof.
  cbn zeta. unfold fetchUsers, Script_try_catch, mbind, Script_bind.
  unfold call_client, console_log, Script_console_error.
  rewrite apiClient_unfold. cbn zeta. rewrite request_config_bare.
  unfold failed_call, request_url.
  destruct (fetch _ _) as [response|reason]; cbn.
  - destruct (ok response); cbn.
    + destruct (json response) as [data|reason]; cbn.
      * repeat split; [|done]. intros users [= ->].
        by rewrite <- (assoc_L (++)).
      * repeat split; [done|]. intros error [= <-].
        by rewrite <- (assoc_L (++)).
    + repeat split; [done|]. intros error [= <-].
      by rewrite <- (assoc_L (++)).
  - repeat split; [done|]. intros error [= <-].
    by rewrite <- (assoc_L (++)).
Qed.

Lemma fetchUsers_never_rejects_witness :
  (fetchUsers fetch_down []).1
  = [EvClient (EvFetch "https://jsonplaceholder.typicode.com/users/1"
                 bare_config);
     EvClient (EvConsoleError "API call failed:" (Foreign network_down));
     EvClient (EvConsoleError "Error fetching users:"
                 (Foreign network_down))].
Proof.
  apply (fetchUsers_never_rejects fetch_down [] : _ ∧ _ ∧ _).
  reflexivity.
Defined.

(** ** The alphabet of the query string *)

Lemma string_forallb_app (p : ascii → bool) (s1 s2 : string) :
  string_forallb p (s1 +:+ s2) = string_forallb p s1 && string_forallb p s2.
Proof.
  induction s1 as [|c s1 IH]; [done|].
  change (p c && string_forallb p (s1 +:+ s2)
          = p c && string_forallb p s1 && string_forallb p s2).
  by rewrite IH, andb_assoc.
Qed.

Lemma string_count_app (c : ascii) (s1 s2 : string) :
  string_count c (s1 +:+ s2) = string_count c s1 + string_count c s2.
Proof.
  induction s1 as [|c' s1 IH]; [done|].
  change ((if Ascii.eqb c c' then 1 else 0) + string_count c (s1 +:+ s2)
          = (if Ascii.eqb c c' then 1 else 0) + string_count c s1
            + string_count c s2).
  rewrite IH. lia.
Qed.

Lemma string_count_absent (p : ascii → bool) (c : ascii) (s : string) :
  p c = false → string_forallb p s = true → string_count c s = 0.
Proof.
  intros Hc. induction s as [|c' s IH]; [done|]. cbn.
  intros [Hc' Hs]%andb_true_iff. rewrite (IH Hs).
  destruct (Ascii.eqb_spec c c') as [->|]; [congruence|done].
Qed.

Lemma string_forallb_impl (p q : ascii → bool) (s : string) :
  (∀ c, p c = true → q c = true) →
  string_forallb p s = true → string_forallb q s = true.
Proof.
  intros Hpq. induction s as [|c s IH]; [done|]. cbn.
  intros [Hc Hs]%andb_true_iff. by rewrite (Hpq c Hc), (IH Hs).
Qed.

Lemma urlencoded_byte_output (c : ascii) :
  string_forallb urlencoded_output (urlencoded_byte c) = true.
Proof. by destruct c as [[] [] [] [] [] [] [] []]. Qed.

Lemma urlencoded_string_output (s : string) :
  string_forallb urlencoded_output (urlencoded_string s) = true.
Proof.
  induction s as [|c s IH]; [done|].
  change (string_forallb urlencoded_output
            (urlencoded_byte c +:+ urlencoded_string s) = true).
  by rewrite string_forallb_app, urlencoded_byte_output, IH.
Qed.

Lemma urlencoded_output_query_byte (c : ascii) :
  urlencoded_output c = true → query_byte c = true.
Proof. unfold query_byte. by intros ->. Qed.

Lemma urlencoded_string_no_separator (sep : ascii) (s : string) :
  urlencoded_output sep = false →
  string_count sep (urlencoded_string s) = 0.
Proof.
  intros Hsep. eapply string_count_absent; [exact Hsep|].
  apply urlencoded_string_output.
Qed.

Lemma urlencoded_tuple_shape (tuple : string * string) :
  string_forallb query_byte (urlencoded_tuple tuple) = true
  ∧ string_count "="%char (urlencoded_tuple tuple) = 1
  ∧ string_count "&"%char (urlencoded_tuple tuple) = 0.
Proof.
  unfold urlencoded_tuple. split; [|split].
  - assert (∀ s, string_forallb query_byte (urlencoded_string s) = true)
      as Hsafe.
    { intros s. apply (string_forallb_impl urlencoded_output);
        auto using urlencoded_output_query_byte, urlencoded_string_output. }
    by rewrite !string_forallb_app, !Hsafe.
  - rewrite !string_count_app.
    by rewrite !(urlencoded_string_no_separator "="%char).
  - rewrite !string_count_app.
    by rewrite !(urlencoded_string_no_separator "&"%char).
Qed.

(** What the serializer appends after the first tuple. *)
Lemma URLSearchParams_toString_cons (tuple : string * string)
    (params : URLSearchParams) :
  URLSearchParams_toString (tuple :: params)
  = urlencoded_tuple tuple
    +:+ foldr (λ t rest, "&" +:+ urlencoded_tuple t +:+ rest)
              EmptyString params.
Proof.
  unfold URLSearchParams_toString. cbn [fold_left].
  by rewrite urlencoded_loop_nonempty by apply truthy_urlencoded_tuple.
Qed.

Lemma urlencoded_rest_shape (params : URLSearchParams) :
  let rest := foldr (λ t rest, "&" +:+ urlencoded_tuple t +:+ rest)
                    EmptyString params in
  string_forallb query_byte rest = true
  ∧ string_count "="%char rest = length params
  ∧ string_count "&"%char rest = length params.
Proof.
  cbn zeta. induction params as [|tuple params (IHsafe & IHeq & IHamp)];
    [done|].
  destruct (urlencoded_tuple_shape tuple) as (Hsafe & Heq & Hamp).
  cbn [foldr length]. split; [|split].
  - by rewrite !string_forallb_app, Hsafe, IHsafe.
  - rewrite !string_count_app, Heq, IHeq. done.
  - rewrite !string_count_app, Hamp, IHamp. done.
Qed.

(** X9. Whatever the filter names and values are, the query string that
    [fetchFilteredData] appends after "/<resource>?" consists of ASCII
    letters, digits, [*], [-], [.], [_], [+], [%] and the separators [=] and
    [&] only, with exactly one [=] per parameter and one [&] between
    consecutive parameters: filter data cannot add or split parameters. *)
Theorem fetchFilteredData_query_is_safe (resource : string)
    (filters : Filters) (options : option FilterOptions) :
  let params := fetchFilteredData_queryParams filters options in
  let query := URLSearchParams_toString params in
  fetchFilteredData_endpoint resource filters options
  = "/" +:+ resource +:+ "?" +:+ query
  ∧ string_forallb query_byte query = true
  ∧ string_count "="%char query = length params
  ∧ string_count "&"%char query = pred (length params).
Proof.
  cbn zeta. split; [done|].
  destruct (fetchFilteredData_queryParams filters options)
    as [|tuple params]; [done|].
  rewrite URLSearchParams_toString_cons.
  destruct (urlencoded_tuple_shape tuple) as (Hsafe & Heq & Hamp).
  destruct (urlencoded_rest_shape params) as (Hrsafe & Hreq & Hramp).
  cbn zeta in *. cbn [length pred]. split; [|split].
  - by rewrite string_forallb_app, Hsafe, Hrsafe.
  - by rewrite string_count_app, Heq, Hreq.
  - by rewrite string_count_app, Hamp, Hramp.
Qed.

(** ** The query string loses nothing *)

Lemma urldecoded_byte (c : ascii) (rest : string) :
  urldecoded_string (urlencoded_byte c +:+ rest)
  = String c (urldecoded_string rest).
Proof. by destruct c as [[] [] [] [] [] [] [] []]. Qed.

Lemma urldecoded_urlencoded (s : string) :
  urldecoded_string (urlencoded_string s) = s.
Proof.
  induction s as [|c s IH]; [done|].
  change (urldecoded_string (urlencoded_byte c +:+ urlencoded_string s)
          = String c s).
  by rewrite urldecoded_byte, IH.
Qed.

Lemma urlencoded_string_inj (s1 s2 : string) :
  urlencoded_string s1 = urlencoded_string s2 → s1 = s2.
Proof.
  intros Heq. apply (f_equal urldecoded_string) in Heq.
  by rewrite !urldecoded_urlencoded in Heq.
Qed.

(** Two strings free of a separator, each followed by nothing or by the
    separator, are cut at the same place. *)
Lemma cut_at_separator (sep : ascii) (s1 s2 r1 r2 : string) :
  string_count sep s1 = 0 → string_count sep s2 = 0 →
  (r1 = EmptyString ∨ ∃ r, r1 = String sep r) →
  (r2 = EmptyString ∨ ∃ r, r2 = String sep r) →
  s1 +:+ r1 = s2 +:+ r2 → s1 = s2 ∧ r1 = r2.
Proof.
  revert s2. induction s1 as [|c1 s1 IH]; intros [|c2 s2] H1 H2 Hr1 Hr2 Heq.
  - done.
  - exfalso. cbn in Heq. destruct Hr1 as [-> | [r ->]]; [done|].
    injection Heq as <- _. cbn in H2.
    by rewrite Ascii.eqb_refl in H2.
  - exfalso. cbn in Heq. destruct Hr2 as [-> | [r ->]]; [done|].
    injection Heq as -> _. cbn in H1.
    by rewrite Ascii.eqb_refl in H1.
  - change (String c1 (s1 +:+ r1) = String c2 (s2 +:+ r2)) in Heq.
    injection Heq as -> Heq. cbn in H1, H2.
    destruct (IH s2) as [-> ->]; try done; lia.
Qed.

Lemma urlencoded_tuple_inj (t1 t2 : string * string) :
  urlencoded_tuple t1 = urlencoded_tuple t2 → t1 = t2.
Proof.
  destruct t1 as [n1 v1], t2 as [n2 v2]. unfold urlencoded_tuple. cbn.
  intros Heq.
  apply (cut_at_separator "="%char) in Heq as [Hn Hv].
  - injection Hv as Hv.
    by rewrite (urlencoded_string_inj _ _ Hn), (urlencoded_string_inj _ _ Hv).
  - by apply urlencoded_string_no_separator.
  - by apply urlencoded_string_no_separator.
  - right. by eexists.
  - right. by eexists.
Qed.

Lemma urlencoded_rest_inj (params1 params2 : URLSearchParams) :
  foldr (λ t rest, "&" +:+ urlencoded_tuple t +:+ rest) EmptyString params1
  = foldr (λ t rest, "&" +:+ urlencoded_tuple t +:+ rest) EmptyString params2
  → params1 = params2.
Proof.
  revert params2.
  induction params1 as [|t1 params1 IH]; intros [|t2 params2]; cbn [foldr];
    [done|done|done|].
  intros Heq. apply (inj (String.app "&")) in Heq.
  apply (cut_at_separator "&"%char) in Heq as [Ht Hrest].
  - by rewrite (urlencoded_tuple_inj _ _ Ht), (IH _ Hrest).
  - apply urlencoded_tuple_shape.
  - apply urlencoded_tuple_shape.
  - destruct params1; [by left|right; by eexists].
  - destruct params2; [by left|right; by eexists].
Qed.

Lemma URLSearchParams_toString_inj (params1 params2 : URLSearchParams) :
  URLSearchParams_toString params1 = URLSearchParams_toString params2 →
  params1 = params2.
Proof.
  destruct params1 as [|t1 params1], params2 as [|t2 params2];
    rewrite ?URLSearchParams_toString_cons.
  - done.
  - intros Heq. exfalso.
    pose proof (truthy_urlencoded_tuple t2) as Ht.
    change (URLSearchParams_toString []) with EmptyString in Heq.
    by destruct (urlencoded_tuple t2).
  - intros Heq. exfalso.
    pose proof (truthy_urlencoded_tuple t1) as Ht.
    change (URLSearchParams_toString []) with EmptyString in Heq.
    by destruct (urlencoded_tuple t1).
  - intros Heq.
    apply (cut_at_separator "&"%char) in Heq as [Ht Hrest].
    + by rewrite (urlencoded_tuple_inj _ _ Ht), (urlencoded_rest_inj _ _ Hrest).
    + apply urlencoded_tuple_shape.
    + apply urlencoded_tuple_shape.
    + destruct params1; [by left|right; by eexists].
    + destruct params2; [by left|right; by eexists].
Qed.

(** X10. For one resource, two calls of [fetchFilteredData] request the same
    endpoint only if they append the same list of parameters, names and
    values: the serialization of the query loses nothing. *)
Theorem fetchFilteredData_endpoint_injective (resource : string)
    (filters1 filters2 : Filters) (options1 options2 : option FilterOptions) :
  fetchFilteredData_endpoint resource filters1 options1
  = fetchFilteredData_endpoint resource filters2 options2 →
  fetchFilteredData_queryParams filters1 options1
  = fetchFilteredData_queryParams filters2 options2.
Proof.
  unfold fetchFilteredData_endpoint. intros Heq.
  apply (inj (String.app "/")) in Heq.
  apply (inj (String.app resource)) in Heq.
  apply (inj (String.app "?")) in Heq.
  by apply URLSearchParams_toString_inj.
Qed.

Lemma fetchFilteredData_endpoint_injective_witness :
  fetchFilteredData_queryParams [("name", SString "Lea Mc&Co")]
    (Some {| sortBy := None; order := Some desc;
             limit := Some (Int 0 I); start := None |})
  = fetchFilteredData_queryParams [("name", SString "Lea Mc&Co")]
      (Some {| sortBy := Some EmptyString; order := Some desc;
               limit := None; start := None |}).
Proof.
  apply (fetchFilteredData_endpoint_injective "users"
           [("name", SString "Lea Mc&Co")] [("name", SString "Lea Mc&Co")]
           (Some {| sortBy := None; order := Some desc;
                    limit := Some (Int 0 I); start := None |})
           (Some {| sortBy := Some EmptyString; order := Some desc;
                    limit := None; start := None |})).
  reflexivity.
Defined.

(** ** The two helpers side by side *)

Lemma urlencoded_literal_byte (c : ascii) :
  urlencoded_literal (N_of_ascii c) = true →
  urlencoded_byte c = String c EmptyString.
Proof.
  unfold urlencoded_byte. cbn zeta. intros Hliteral. rewrite Hliteral.
  destruct (N_of_ascii c =? 32)%N eqn:Hspace; [|done].
  apply N.eqb_eq in Hspace. by rewrite Hspace in Hliteral.
Qed.

Lemma urlencoded_unreserved (s : string) :
  unreserved s = true → urlencoded_string s = s.
Proof.
  unfold unreserved. induction s as [|c s IH]; [done|]. cbn.
  intros [Hc Hs]%andb_true_iff.
  by rewrite (urlencoded_literal_byte c Hc), (IH Hs).
Qed.

Lemma unreserved_app (s1 s2 : string) :
  unreserved (s1 +:+ s2) = unreserved s1 && unreserved s2.
Proof. apply string_forallb_app. Qed.

(** X11. When the field name and a non-empty search term consist of ASCII
    letters, digits, [*], [-], [.], [_] only, [fetchData(resource, field,
    term)] is the same computation as [fetchFilteredData(resource,
    {<field>_like: term})]: same request, same outcome. *)
Theorem fetchData_as_filter (fetch : Transport)
    (resource searchField term : string) :
  unreserved searchField = true → unreserved term = true →
  term ≠ EmptyString →
  fetchData fetch resource searchField (Some term)
  = fetchFilteredData fetch resource
      [(searchField +:+ "_like", SString term)] None.
Proof.
  intros Hfield Hterm Hne.
  unfold fetchData, fetchFilteredData. f_equal.
  assert (truthy_string term = true) as Htruthy by by destruct term.
  unfold fetchData_endpoint, fetchFilteredData_endpoint. cbn zeta.
  unfold default, id. rewrite Htruthy.
  assert (fetchFilteredData_queryParams
            [(searchField +:+ "_like", SString term)] None
          = [(searchField +:+ "_like", term)]) as ->.
  { rewrite fetchFilteredData_queryParams_eq. unfold filter_params.
    by rewrite Object_entries_singleton. }
  rewrite URLSearchParams_toString_cons. cbn [foldr].
  rewrite string_app_nil_r. unfold urlencoded_tuple. cbn [fst snd].
  rewrite !urlencoded_unreserved; [|done|].
  - by rewrite !string_app_assoc.
  - by rewrite unreserved_app, Hfield.
Qed.

Lemma fetchData_as_filter_witness :
  fetchData fetch_ok "users" "name" (Some "Lea")
  = fetchFilteredData fetch_ok "users" [("name_like", SString "Lea")] None.
Proof.
  apply (fetchData_as_filter fetch_ok "users" "name" "Lea");
    [reflexivity|reflexivity|discriminate].
Defined.

(** X12. [fetchData] inserts the field name and the search term as they are,
    so a separator inside them cannot be told from the ones [fetchData]
    writes: a term that continues with "&<k>_like=<v>" yields the endpoint of
    the field "<field>_like=<t>&<k>" with the term [v]. *)
Theorem fetchData_term_not_escaped (resource searchField term : string)
    (field' term' : string) :
  term' ≠ EmptyString →
  fetchData_endpoint resource searchField
    (Some (term +:+ "&" +:+ field' +:+ "_like=" +:+ term'))
  = fetchData_endpoint resource
      (searchField +:+ "_like=" +:+ term +:+ "&" +:+ field')
      (Some term').
Proof.
  intros Hne. unfold fetchData_endpoint. cbn zeta. unfold default, id.
  assert (truthy_string (term +:+ "&" +:+ field' +:+ "_like=" +:+ term')
          = true) as -> by by destruct term.
  destruct term' as [|c term']; [done|]. cbn [truthy_string].
  by rewrite !string_app_assoc.
Qed.

Lemma fetchData_term_not_escaped_witness :
  fetchData_endpoint "users" "name" (Some "Lea&_limit_like=1")
  = fetchData_endpoint "users" "name_like=Lea&_limit" (Some "1").
Proof.
  apply (fetchData_term_not_escaped "users" "name" "Lea" "_limit" "1").
  discriminate.
Defined.

(** ** Which options reach the query *)

Lemma elem_of_param_if_set {A : Type} (truthy : A → bool) (show : A → string)
    (name : string) (o : option A) (n v : string) :
  (n, v) ∈ param_if_set truthy show name o
  ↔ n = name ∧ ∃ a, o = Some a ∧ truthy a = true ∧ v = show a.
Proof.
  unfold param_if_set. destruct o as [a|].
  - destruct (truthy a) eqn:Ha.
    + rewrite list_elem_of_singleton. split.
      * intros [= -> ->]. eauto.
      * by intros [-> (a' & [= <-] & _ & ->)].
    + split; [by intros ?%elem_of_nil|].
      intros [_ (a' & [= <-] & Ha' & _)]. congruence.
  - split; [by intros ?%elem_of_nil|]. by intros [_ (a' & ? & _)].
Qed.

Lemma truthy_string_nonempty (s : string) :
  truthy_string s = true ↔ s ≠ EmptyString.
Proof. by destruct s. Qed.

(** X13. After the parameters of the filter object, [fetchFilteredData]
    appends a parameter for an option exactly when that option alone is
    truthy: [_sort] for a non-empty sort field, [_order] whenever an order is
    given (with or without a sort field), [_limit] and [_start] for every
    number other than zero and [NaN], negative ones and the infinities
    included; and it appends nothing else. *)
Theorem fetchFilteredData_option_parameters
    (filters : list (string * Scalar)) (options : option FilterOptions) :
  let given := default no_filter_options options in
  let appended :=
    drop (length (Object_entries filters))
         (fetchFilteredData_queryParams filters options) in
  (∀ v, ("_sort", v) ∈ appended ↔ sortBy given = Some v ∧ v ≠ EmptyString)
  ∧ (∀ v, ("_order", v) ∈ appended
          ↔ (order given = Some asc ∧ v = "asc")
            ∨ (order given = Some desc ∧ v = "desc"))
  ∧ (∀ v, ("_limit", v) ∈ appended
          ↔ ∃ n, limit given = Some n
                 ∧ (n ≠ NaN ∧ ∀ safe, n ≠ Int 0 safe)
                 ∧ v = Number_toString n)
  ∧ (∀ v, ("_start", v) ∈ appended
          ↔ ∃ n, start given = Some n
                 ∧ (n ≠ NaN ∧ ∀ safe, n ≠ Int 0 safe)
                 ∧ v = Number_toString n)
  ∧ (∀ name v,
       (name, v) ∈ appended →
       name ∈ ["_sort"; "_order"; "_limit"; "_start"]).
Proof.
  cbn zeta. rewrite fetchFilteredData_queryParams_eq.
  replace (length (Object_entries filters))
    with (length (filter_params filters))
    by (unfold filter_params; apply length_map).
  rewrite drop_app_length. unfold option_params.
  generalize (default no_filter_options options). intros given.
  split; [|split; [|split; [|split]]].
  - intros v. rewrite !elem_of_app, !elem_of_param_if_set. split.
    + intros [(_ & a & -> & Ha%truthy_string_nonempty & ->)
             | [[? _] | [[? _] | [? _]]]]; done.
    + intros [Hsort Hne]. left. split; [done|]. exists v.
      by rewrite truthy_string_nonempty.
  - intros v. rewrite !elem_of_app, !elem_of_param_if_set. split.
    + intros [[? _] | [(_ & a & -> & _ & ->) | [[? _] | [? _]]]]; try done.
      destruct a; [by left|by right].
    + intros [[Horder ->] | [Horder ->]]; right; left; split; try done;
        eexists; by split.
  - intros v. rewrite !elem_of_app, !elem_of_param_if_set. split.
    + intros [[? _] | [[? _] | [(_ & a & -> & Ha%truthy_number_spec & ->)
                               | [? _]]]]; try done.
      by exists a.
    + intros (n & Hlimit & Hne & ->). right. right. left.
      split; [done|]. exists n. by rewrite truthy_number_spec.
  - intros v. rewrite !elem_of_app, !elem_of_param_if_set. split.
    + intros [[? _] | [[? _] | [[? _]
             | (_ & a & -> & Ha%truthy_number_spec & ->)]]]; try done.
      by exists a.
    + intros (n & Hstart & Hne & ->). right. right. right.
      split; [done|]. exists n. by rewrite truthy_number_spec.
  - intros name v. rewrite !elem_of_app, !elem_of_param_if_set.
    intros [[-> _] | [[-> _] | [[-> _] | [-> _]]]]; set_solver.
Qed.

Lemma fetchFilteredData_option_parameters_witness :
  ("_limit", "-5")
  ∈ drop 1 (fetchFilteredData_queryParams [("_limit", SNumber (Int 3 I))]
              (Some {| sortBy := None; order := Some desc;
                       limit := Some (Int (-5) I);
                       start := Some NaN |})).
Proof.
  apply (fetchFilteredData_option_parameters
           [("_limit", SNumber (Int 3 I))]
           (Some {| sortBy := None; order := Some desc;
                    limit := Some (Int (-5) I); start := Some NaN |})
         : _ ∧ _ ∧ _).
  exists (Int (-5) I). by repeat split.
Defined.

(** ** A sample body *)

(** The body of the request that the documentation of [apiClient] gives as
    an example: [JSON.stringify({ name: 'John Doe', email:
    'john@example.com' })]. *)
Example stringify_john :
  let q s := String JsonText.quote_char
               (s +:+ String JsonText.quote_char EmptyString) in
  JsonText.stringify john
  = "{" +:+ q "name" +:+ ":" +:+ q "John Doe" +:+ ","
        +:+ q "email" +:+ ":" +:+ q "john@example.com" +:+ "}".
Proof. reflexivity. Qed.

(** Control characters, quotes and backslashes inside a string are
    escaped. *)
Example stringify_escapes :
  JsonText.stringify
    (JString (String "010"%char
                (String JsonText.quote_char (String "001"%char "x\y"))))
  = String JsonText.quote_char
      ("\n\" +:+ String JsonText.quote_char
                   ("\u0001x\\y" +:+ String JsonText.quote_char EmptyString)).
Proof. reflexivity. Qed.
